(** * Table-reference rendering of node-sql-parser (src/tables.js)

    A shallow embedding of the table renderers of [src/tables.js] over a
    small model of the JavaScript values they read, together with the
    properties of the rendered text.

    [tables.js] imports its expression, identifier and literal renderers
    from sibling modules ([./expr], [./column], [./binary], [./insert],
    [./interval], [./util]).  The renderers of expressions, identifiers,
    literals, column references, value lists, intervals and generator
    triples are an interface the development is parametric in; the three
    thin helpers [toUpper], [hasVal] and [commonOptionConnector] are
    modelled from their contracts. *)

From Stdlib Require Import String Ascii List ZArith Bool DecimalString.
Import ListNotations.
Local Open Scope list_scope.
Local Open Scope string_scope.

Set Warnings "-register-all".

(** ** JavaScript values *)

(** The AST handed to the renderers is plain data.  [VFun] stands for a
    built-in method object: it is what reading [join] or [values] from an
    array yields.  Numbers are the integral ones. *)
Inductive value : Type :=
| VUndef
| VNull
| VBool (b : bool)
| VNum (n : Z)
| VStr (s : string)
| VArr (items : list value)
| VObj (fields : list (string * value))
| VFun (name : string).

(** Induction on values that reaches the items of an array and the fields
    of an object. *)
Fixpoint value_induction (P : value -> Prop)
    (Hundef : P VUndef) (Hnull : P VNull)
    (Hbool : forall b, P (VBool b)) (Hnum : forall n, P (VNum n))
    (Hstr : forall s, P (VStr s))
    (Harr : forall items, Forall P items -> P (VArr items))
    (Hobj : forall fields, Forall (fun kv => P (snd kv)) fields -> P (VObj fields))
    (Hfun : forall name, P (VFun name))
    (v : value) {struct v} : P v :=
  let rec := value_induction P Hundef Hnull Hbool Hnum Hstr Harr Hobj Hfun in
  match v with
  | VUndef => Hundef
  | VNull => Hnull
  | VBool b => Hbool b
  | VNum n => Hnum n
  | VStr s => Hstr s
  | VArr items =>
      Harr items
        ((fix all (l : list value) : Forall P l :=
            match l with
            | [] => Forall_nil P
            | x :: l' => Forall_cons x (rec x) (all l')
            end) items)
  | VObj fields =>
      Hobj fields
        ((fix all (l : list (string * value)) : Forall (fun kv => P (snd kv)) l :=
            match l with
            | [] => Forall_nil _
            | kv :: l' => Forall_cons kv (rec (snd kv)) (all l')
            end) fields)
  | VFun name => Hfun name
  end.

(** Abrupt completion: the only fault the renderers can raise themselves is
    a [TypeError] (reading a property of [undefined]/[null], or calling a
    method the receiver does not have). *)
Inductive result (A : Type) : Type :=
| Ok (a : A)
| TypeError.
Arguments Ok {A} a.
Arguments TypeError {A}.

Definition bind {A B : Type} (r : result A) (k : A -> result B) : result B :=
  match r with
  | Ok a => k a
  | TypeError => TypeError
  end.

Declare Scope js_scope.
Delimit Scope js_scope with js.
Notation "x <- e ;; k" := (bind e (fun x => k))
  (at level 61, e at next level, right associativity) : js_scope.
Local Open Scope js_scope.


(** [Array.prototype.map] with a callback that may throw. *)
Fixpoint mapM {A B : Type} (f : A -> result B) (l : list A) : result (list B) :=
  match l with
  | [] => Ok []
  | x :: l' => y <- f x ;; ys <- mapM f l' ;; Ok (y :: ys)
  end.

(** *** Strings *)

Definition upper_ascii (c : ascii) : ascii :=
  let n := nat_of_ascii c in
  if andb (Nat.leb 97 n) (Nat.leb n 122) then ascii_of_nat (n - 32) else c.

Definition lower_ascii (c : ascii) : ascii :=
  let n := nat_of_ascii c in
  if andb (Nat.leb 65 n) (Nat.leb n 90) then ascii_of_nat (n + 32) else c.

Fixpoint string_map (f : ascii -> ascii) (s : string) : string :=
  match s with
  | EmptyString => EmptyString
  | String c s' => String (f c) (string_map f s')
  end.

(** [String.prototype.toUpperCase] / [toLowerCase] on ASCII text. *)
Definition toUpperCase (s : string) : string := string_map upper_ascii s.
Definition toLowerCase (s : string) : string := string_map lower_ascii s.

(** [s.split(c)] for a one-character separator. *)
Fixpoint split_on (c : ascii) (s : string) : list string :=
  match s with
  | EmptyString => [EmptyString]
  | String a r =>
      if Ascii.eqb a c then EmptyString :: split_on c r
      else match split_on c r with
           | h :: t => String a h :: t
           | [] => [String a EmptyString]
           end
  end.

(** *** Coercions *)

(** ToBoolean. *)
Definition truthy (v : value) : bool :=
  match v with
  | VUndef | VNull => false
  | VBool b => b
  | VNum n => negb (Z.eqb n 0)
  | VStr s => negb (String.eqb s "")
  | VArr _ | VObj _ | VFun _ => true
  end.

Definition nullish (v : value) : bool :=
  match v with
  | VUndef | VNull => true
  | _ => false
  end.

Definition string_of_Z (n : Z) : string := NilZero.string_of_int (Z.to_int n).

(** ToString, as applied by template literals. *)
Fixpoint to_string (v : value) : string :=
  match v with
  | VUndef => "undefined"
  | VNull => "null"
  | VBool true => "true"
  | VBool false => "false"
  | VNum n => string_of_Z n
  | VStr s => s
  | VArr items =>
      (fix elems (l : list value) : string :=
         match l with
         | [] => ""
         | x :: l' =>
             (if nullish x then "" else to_string x)
             ++ match l' with [] => "" | _ :: _ => "," ++ elems l' end
         end) items
  | VObj _ => "[object Object]"
  | VFun name => "function " ++ name ++ "() { [native code] }"
  end.

(** The text an element contributes to [Array.prototype.join]. *)
Definition join_item (v : value) : string :=
  if nullish v then "" else to_string v.

(** [arr.join(sep)]. *)
Definition array_join (sep : string) (l : list value) : string :=
  String.concat sep (map join_item l).

(** [v === 'lit']. *)
Definition strict_eq (v : value) (lit : string) : bool :=
  match v with
  | VStr s => String.eqb s lit
  | _ => false
  end.

(** [typeof v === 'string']. *)
Definition is_string (v : value) : bool :=
  match v with VStr _ => true | _ => false end.


(** [a || b] and [a && b] with a pure right operand. *)
Definition js_or (a b : value) : value := if truthy a then a else b.
Definition js_and (a b : value) : value := if truthy a then b else a.

(** [a && <b>] where evaluating [b] may throw. *)
Definition and_then (a : value) (b : value -> result value) : result value :=
  if truthy a then b a else Ok a.

(** *** Property access and method calls *)

Fixpoint lookup (fields : list (string * value)) (k : string) : value :=
  match fields with
  | [] => VUndef
  | (k', v) :: rest => if String.eqb k' k then v else lookup rest k
  end.

(** The value of property [k] of a value that is neither [undefined] nor
    [null], for the property names this module reads.  Of those names only
    [join] and [values] are inherited by a non-object value (both from
    [Array.prototype]). *)
Definition field (o : value) (k : string) : value :=
  match o with
  | VObj fields => lookup fields k
  | VArr _ =>
      if orb (String.eqb k "join") (String.eqb k "values") then VFun k
      else VUndef
  | _ => VUndef
  end.

(** [o.k], also one binding of a destructuring [const { k } = o]. *)
Definition get (o : value) (k : string) : result value :=
  if nullish o then TypeError else Ok (field o k).

(** [v.toLowerCase()], [v.toUpperCase()]: only strings have the method. *)
Definition call_toLowerCase (v : value) : result string :=
  match v with VStr s => Ok (toLowerCase s) | _ => TypeError end.
Definition call_toUpperCase (v : value) : result string :=
  match v with VStr s => Ok (toUpperCase s) | _ => TypeError end.

(** [v.map(f)]: only arrays have the method.  [call_map] is for a callback
    that may throw, [call_map_pure] for one that cannot. *)
Definition call_map {B : Type} (v : value) (f : value -> result B) : result (list B) :=
  match v with VArr items => mapM f items | _ => TypeError end.
Definition call_map_pure {B : Type} (v : value) (f : value -> B) : result (list B) :=
  match v with VArr items => Ok (map f items) | _ => TypeError end.

(** [v.split('(')]: only strings have the method. *)
Definition call_split (v : value) (c : ascii) : result (list string) :=
  match v with VStr s => Ok (split_on c s) | _ => TypeError end.

(** ** The helpers of [./util] *)

(** Modelled from the spec: [toUpper] of [./util] is not part of this file.
    Its contract is "uppercase a keyword", from a keyword to text.  The
    renderers also hand it optional fields and drop the result when the
    field is absent ("PREFIX is rendered only if present"), so an absent
    value yields no text.  A value that is there and is not text is not a
    keyword: it has no upper case to take, and the call is a fault, as
    [toUpperCase] on a value that is not a string is. *)
Definition toUpper (v : value) : result value :=
  match v with
  | VStr s => Ok (VStr (toUpperCase s))
  | _ => if truthy v then TypeError else Ok VUndef
  end.

(** Modelled from the spec: [hasVal] of [./util] is not part of this file.
    Its contract is "true iff a rendered segment should be kept", deciding
    "whether a rendered fragment is present/non-empty"; it is used as a
    [filter] callback, so presence is JavaScript truthiness. *)
Definition hasVal (v : value) : bool := truthy v.

(** Modelled from the spec: [commonOptionConnector] of [./util] is not part
    of this file.  Its contract is "returns empty if value is absent, else
    <KEYWORD> <renderFn(value)>"; absence is the [hasVal] test. *)
Definition commonOptionConnector
    (keyword : value) (action : value -> value) (opt : value) : value :=
  if truthy opt
  then VStr (to_string keyword ++ " " ++ to_string (action opt))
  else VStr "".

(** [arr.filter(hasVal).join(sep)], the closing step of most renderers. *)
Definition filter_join (sep : string) (l : list value) : string :=
  array_join sep (filter hasVal l).

(** ** The renderers of [tables.js] *)

(** The collaborators imported from the sibling modules: pure producers of
    text, each from one node ([commonTypeValue] produces the list of texts
    of a generator triple).  Where one of them is the callback of a [map],
    it is applied to the element, which is the one argument of its
    contract.  Each is taken to return on whatever it is handed: a run in
    which a collaborator itself throws is outside the development, and the
    faults of the renderers are those they raise themselves. *)
Class Collaborators : Type := {
  exprToSQL : value -> value;
  identifierToSql : value -> value;
  columnRefToSQL : value -> value;
  binaryToSQL : value -> value;
  valuesToSQL : value -> value;
  intervalToSQL : value -> value;
  literalToSQL : value -> value;
  commonTypeValue : value -> list value
}.

Section Renderers.

Context {collaborators : Collaborators}.

Definition unnestToSQL (unnestExpr : value) : result value :=
  type <- get unnestExpr "type" ;;
  as_ <- get unnestExpr "as" ;;
  expr <- get unnestExpr "expr" ;;
  withOffset <- get unnestExpr "with_offset" ;;
  upperType <- toUpper type ;;
  offsetKeyword <- and_then withOffset (fun w => get w "keyword") ;;
  upperKeyword <- toUpper offsetKeyword ;;
  offsetAs <- and_then withOffset (fun w => get w "as") ;;
  let result :=
    [ VStr (to_string upperType ++ "("
            ++ to_string (js_or (js_and expr (exprToSQL expr)) (VStr "")) ++ ")");
      commonOptionConnector (VStr "AS")
        (if is_string as_ then identifierToSql else exprToSQL) as_;
      commonOptionConnector upperKeyword identifierToSql offsetAs ] in
  Ok (VStr (filter_join " " result)).

Definition pivotOperatorToSQL (operator : value) : result value :=
  as_ <- get operator "as" ;;
  column <- get operator "column" ;;
  expr <- get operator "expr" ;;
  in_expr <- get operator "in_expr" ;;
  type <- get operator "type" ;;
  let result :=
    [ exprToSQL expr; VStr "FOR"; columnRefToSQL column; binaryToSQL in_expr ] in
  upperType <- toUpper type ;;
  let sql := [ VStr (to_string upperType ++ "(" ++ array_join " " result ++ ")") ] in
  let sql := if truthy as_ then (sql ++ [ VStr "AS"; identifierToSql as_ ])%list else sql in
  Ok (VStr (array_join " " sql)).

Definition operatorToSQL (operator : value) : result value :=
  if negb (truthy operator) then Ok VUndef else
  type <- get operator "type" ;;
  if strict_eq type "pivot" || strict_eq type "unpivot"
  then pivotOperatorToSQL operator
  else Ok (VStr "").

Definition tableHintToSQL (tableHintExpr : value) : result value :=
  if negb (truthy tableHintExpr) then Ok VUndef else
  keyword <- get tableHintExpr "keyword" ;;
  expr <- get tableHintExpr "expr" ;;
  index <- get tableHintExpr "index" ;;
  index_columns <- get tableHintExpr "index_columns" ;;
  parentheses <- get tableHintExpr "parentheses" ;;
  prefix <- get tableHintExpr "prefix" ;;
  discr <- call_toLowerCase keyword ;;
  result <-
    (if String.eqb discr "forceseek" then
       upperKeyword <- toUpper keyword ;;
       cols <- call_map_pure index_columns exprToSQL ;;
       Ok [ upperKeyword;
            VStr ("(" ++ to_string (identifierToSql index));
            VStr ("(" ++ filter_join ", " cols ++ "))") ]
     else if String.eqb discr "spatial_window_max_cells" then
       upperKeyword <- toUpper keyword ;;
       Ok [ upperKeyword; VStr "="; exprToSQL expr ]
     else if String.eqb discr "index" then
       upperPrefix <- toUpper prefix ;;
       upperKeyword <- toUpper keyword ;;
       last <-
         (if truthy parentheses then
            ids <- call_map_pure expr identifierToSql ;;
            Ok (VStr ("(" ++ array_join ", " ids ++ ")"))
          else Ok (VStr ("= " ++ to_string (identifierToSql expr)))) ;;
       Ok [ upperPrefix; upperKeyword; last ]
     else Ok [ exprToSQL expr ]) ;;
  Ok (VStr (filter_join " " result)).

Definition tableTumbleToSQL (tumble : value) : result value :=
  if negb (truthy tumble) then Ok (VStr "") else
  tableInfo <- get tumble "data" ;;
  timecol <- get tumble "timecol" ;;
  size <- get tumble "size" ;;
  db <- get tableInfo "db" ;;
  table <- get tableInfo "table" ;;
  let fullTableName :=
    VStr (filter_join "." [ identifierToSql db; identifierToSql table ]) in
  let result :=
    [ VStr "TABLE(TUMBLE(TABLE"; fullTableName;
      VStr ("DESCRIPTOR(" ++ to_string (columnRefToSQL timecol) ++ ")");
      VStr (to_string (intervalToSQL size) ++ "))") ] in
  Ok (VStr (filter_join " " result)).

Definition temporalTableOptionToSQL (stmt : value) : result value :=
  keyword <- get stmt "keyword" ;;
  result <-
    (if strict_eq keyword "as" then
       of_ <- get stmt "of" ;;
       Ok [ VStr "AS"; VStr "OF"; exprToSQL of_ ]
     else if strict_eq keyword "from_to" then
       from_ <- get stmt "from" ;;
       to_ <- get stmt "to" ;;
       Ok [ VStr "FROM"; exprToSQL from_; VStr "TO"; exprToSQL to_ ]
     else if strict_eq keyword "between_and" then
       between_ <- get stmt "between" ;;
       and_ <- get stmt "and" ;;
       Ok [ VStr "BETWEEN"; exprToSQL between_; VStr "AND"; exprToSQL and_ ]
     else if strict_eq keyword "contained" then
       in_ <- get stmt "in" ;;
       Ok [ VStr "CONTAINED"; VStr "IN"; exprToSQL in_ ]
     else Ok []) ;;
  Ok (VStr (filter_join " " result)).

Definition temporalTableToSQL (stmt : value) : result value :=
  if negb (truthy stmt) then Ok VUndef else
  keyword <- get stmt "keyword" ;;
  expr <- get stmt "expr" ;;
  upperKeyword <- toUpper keyword ;;
  clause <- temporalTableOptionToSQL expr ;;
  Ok (VStr (filter_join " " [ upperKeyword; clause ])).

Definition generateVirtualTable (stmt : value) : result value :=
  keyword <- get stmt "keyword" ;;
  type <- get stmt "type" ;;
  generators <- get stmt "generators" ;;
  gens <- call_map_pure generators
            (fun generator => VStr (array_join " " (commonTypeValue generator))) ;;
  let generatorSQL := array_join ", " gens in
  upperKeyword <- toUpper keyword ;;
  upperType <- toUpper type ;;
  Ok (VStr (to_string upperKeyword ++ "(" ++ to_string upperType
            ++ "(" ++ generatorSQL ++ "))")).

Definition tableToSQL (tableInfo : value) : result value :=
  type <- get tableInfo "type" ;;
  upperType <- toUpper type ;;
  if strict_eq upperType "UNNEST" then unnestToSQL tableInfo else
  table <- get tableInfo "table" ;;
  db <- get tableInfo "db" ;;
  as_ <- get tableInfo "as" ;;
  expr <- get tableInfo "expr" ;;
  operator <- get tableInfo "operator" ;;
  prefixStr <- get tableInfo "prefix" ;;
  schema <- get tableInfo "schema" ;;
  server <- get tableInfo "server" ;;
  suffix <- get tableInfo "suffix" ;;
  tablesample <- get tableInfo "tablesample" ;;
  temporal_table <- get tableInfo "temporal_table" ;;
  table_hint <- get tableInfo "table_hint" ;;
  let serverName := identifierToSql server in
  let database := identifierToSql db in
  let schemaStr := identifierToSql schema in
  let tableName := js_and table (identifierToSql table) in
  tableName <-
    (if truthy expr then
       exprType <- get expr "type" ;;
       if strict_eq exprType "values" then
         parentheses <- get expr "parentheses" ;;
         values <- get expr "values" ;;
         prefix <- get expr "prefix" ;;
         let valuesExpr := valuesToSQL values in
         valuesExpr <-
           (if truthy prefix then
              parts <- call_split valuesExpr "("%char ;;
              groups <- mapM (fun val =>
                                upperPrefix <- toUpper prefix ;;
                                Ok (VStr (to_string upperPrefix ++ "(" ++ val)))
                             (tl parts) ;;
              Ok (VStr (array_join "" groups))
            else Ok valuesExpr) ;;
         let valueSQL :=
           [ js_and parentheses (VStr "(");
             VStr ("VALUES " ++ to_string valuesExpr);
             js_and parentheses (VStr ")") ] in
         Ok (VStr (filter_join "" valueSQL))
       else if strict_eq exprType "tumble" then tableTumbleToSQL expr
       else if strict_eq exprType "generator" then generateVirtualTable expr
       else Ok (exprToSQL expr)
     else Ok tableName) ;;
  upperPrefix <- toUpper prefixStr ;;
  upperSuffix <- toUpper suffix ;;
  let tableName :=
    VStr (filter_join " " [ upperPrefix; tableName; upperSuffix ]) in
  let str :=
    VStr (filter_join "." [ serverName; database; schemaStr; tableName ]) in
  result <-
    (if truthy tablesample then
       sample_expr <- get tablesample "expr" ;;
       repeatable <- get tablesample "repeatable" ;;
       let tableSampleSQL :=
         VStr (filter_join " " [ VStr "TABLESAMPLE"; exprToSQL sample_expr;
                                 literalToSQL repeatable ]) in
       Ok [ str; tableSampleSQL ]
     else Ok [ str ]) ;;
  temporal <- temporalTableToSQL temporal_table ;;
  pivot <- operatorToSQL operator ;;
  let result :=
    (result ++ [ temporal;
                 commonOptionConnector (VStr "AS") identifierToSql as_;
                 pivot ])%list in
  result <-
    (if truthy table_hint then
       hint_keyword <- get table_hint "keyword" ;;
       upperKeyword <- toUpper hint_keyword ;;
       hint_expr <- get table_hint "expr" ;;
       hints <- call_map hint_expr tableHintToSQL ;;
       Ok (result ++ [ upperKeyword;
                       VStr ("(" ++ filter_join ", " hints ++ ")") ])%list
     else Ok result) ;;
  let tableSQL := filter_join " " result in
  parentheses <- get tableInfo "parentheses" ;;
  Ok (VStr (if truthy parentheses then "(" ++ tableSQL ++ ")" else tableSQL)).

(** The body of the [for] loop of [tablesToSQL]: the clause of one entry
    after the first. *)
Definition joinClause (joinExpr : value) : result value :=
  on <- get joinExpr "on" ;;
  using_ <- get joinExpr "using" ;;
  join <- get joinExpr "join" ;;
  first <-
    (if truthy join then
       upperJoin <- toUpper join ;;
       Ok (VStr (" " ++ to_string upperJoin))
     else Ok (VStr ",")) ;;
  let str := [ first ] in
  tableSQL <- tableToSQL joinExpr ;;
  let str :=
    (str ++ [ tableSQL; commonOptionConnector (VStr "ON") exprToSQL on ])%list in
  str <-
    (if truthy using_ then
       cols <- call_map_pure using_ identifierToSql ;;
       Ok (str ++ [ VStr ("USING (" ++ array_join ", " cols ++ ")") ]%string)%list
     else Ok str) ;;
  Ok (VStr (filter_join " " str)).

(** [tablesToSQL] on an array: lines 160-174. *)
Definition chainToSQL (tables : list value) : result value :=
  let baseTable := hd VUndef tables in
  baseType <- get baseTable "type" ;;
  if strict_eq baseType "dual" then Ok (VStr "DUAL") else
  base <- tableToSQL baseTable ;;
  joins <- mapM joinClause (tl tables) ;;
  Ok (VStr (filter_join "" (base :: joins))).

(** The recursive call is on the [expr] property of a wrapper, which is
    found by walking the fields of the object (as [lookup] does). *)
Fixpoint tablesToSQL (tables : value) : result value :=
  if negb (truthy tables) then Ok (VStr "") else
  match tables with
  | VArr items => chainToSQL items
  | VObj fields =>
      sql <-
        (fix on_expr (fs : list (string * value)) : result value :=
           match fs with
           | [] => Ok (VStr "")
           | (k, v) :: fs' =>
               if String.eqb k "expr" then tablesToSQL v else on_expr fs'
           end) fields ;;
      if truthy (lookup fields "parentheses")
      then Ok (VStr ("(" ++ to_string sql ++ ")"))
      else Ok sql
  | _ => Ok (VStr "")
  end.

Definition tableOptionToSQL (tableOption : value) : result value :=
  keyword <- get tableOption "keyword" ;;
  symbol <- get tableOption "symbol" ;;
  value_ <- get tableOption "value" ;;
  upper <- call_toUpperCase keyword ;;
  let sql := [ VStr upper ] in
  let sql := if truthy symbol then (sql ++ [ symbol ])%list else sql in
  val <-
    (if strict_eq keyword "partition by" || strict_eq keyword "default collate"
     then Ok (exprToSQL value_)
     else if strict_eq keyword "options" then
       items <- call_map value_
                  (fun tableOptionItem =>
                     k <- get tableOptionItem "keyword" ;;
                     s <- get tableOptionItem "symbol" ;;
                     v <- get tableOptionItem "value" ;;
                     Ok (VStr (array_join " " [ k; s; exprToSQL v ]))) ;;
       Ok (VStr ("(" ++ array_join ", " items ++ ")"))
     else if strict_eq keyword "cluster by" then
       exprs <- call_map_pure value_ exprToSQL ;;
       Ok (VStr (array_join ", " exprs))
     else Ok (literalToSQL value_)) ;;
  Ok (VStr (array_join " " (sql ++ [ val ]))).

End Renderers.


(** ** Shapes on which the renderers complete

    What each renderer needs of its input in order not to throw: the fields
    it dereferences or calls a method on, and the keywords it hands to
    [toUpper].  Discriminants ([type] of an operator or of a body, inner
    [keyword]) are not constrained, and every other field may be absent.
    The collaborators are taken to return on whatever they are handed. *)

Section Shapes.

Context {collaborators : Collaborators}.

(** What [toUpper] takes: an absent value, or text. *)
Definition keyword_ok (v : value) : bool :=
  negb (truthy v) || is_string v.

(** The UNNEST dispatch of [tableToSQL]: a text tag that is [UNNEST] in
    upper case. *)
Definition unnest_tag (type : value) : bool :=
  match type with
  | VStr tag => String.eqb (toUpperCase tag) "UNNEST"
  | _ => false
  end.













End Shapes.

(** ** The renderings as the specification words them *)

(** A join entry: the join keyword uppercased after a space, or a comma;
    the table; [ON <condition>]; [USING (<col1>, <col2>, ...)]. *)
Definition spec_joinClause (join : option string) (table : string)
    (on : option string) (using_ : option (list string)) : string :=
  (match join with Some kw => " " ++ toUpperCase kw | None => "," end)
  ++ " " ++ table
  ++ (match on with Some cond => " ON " ++ cond | None => "" end)
  ++ (match using_ with
      | Some cols => " USING (" ++ String.concat ", " cols ++ ")"
      | None => ""
      end).

(** An UNNEST node: [UNNEST(<expr>)], then [ AS <alias>], then the offset
    keyword uppercased followed by the offset identifier. *)
Definition spec_unnest (expr : string) (alias : option string)
    (offset : option (string * string)) : string :=
  "UNNEST(" ++ expr ++ ")"
  ++ (match alias with Some a => " AS " ++ a | None => "" end)
  ++ (match offset with
      | Some (kw, ident) => " " ++ toUpperCase kw ++ " " ++ ident
      | None => ""
      end).

(** The naming parts that are present, in the order [server], [db],
    [schema], [table]. *)
Definition present_parts (node : value) : list value :=
  filter (fun part => negb (nullish part))
    [ field node "server"; field node "db"; field node "schema"; field node "table" ].

(** The qualified name: the present naming parts, rendered as identifiers
    and joined with dots. *)
Definition qualified_name {collaborators : Collaborators} (node : value) : string :=
  String.concat "." (map (fun part => to_string (identifierToSql part)) (present_parts node)).

(** A node without one of its fields. *)
Definition remove_field (k : string) (node : value) : value :=
  match node with
  | VObj fields => VObj (filter (fun kv => negb (String.eqb (fst kv) k)) fields)
  | _ => node
  end.

(** A text with [prefix] put before each of its opening parentheses. *)
Fixpoint insert_before_paren (prefix s : string) : string :=
  match s with
  | EmptyString => EmptyString
  | String c rest =>
      if Ascii.eqb c "("%char
      then prefix ++ String c (insert_before_paren prefix rest)
      else String c (insert_before_paren prefix rest)
  end.

(** A text from its first opening parenthesis on; empty when it has none. *)
Fixpoint from_first_paren (s : string) : string :=
  match s with
  | EmptyString => EmptyString
  | String c rest => if Ascii.eqb c "("%char then s else from_first_paren rest
  end.

(** [inner] inside wrapper objects, the outermost first, each with its
    [parentheses] flag. *)
Fixpoint wrappers (flags : list bool) (inner : value) : value :=
  match flags with
  | [] => inner
  | flag :: flags' =>
      VObj [("expr", wrappers flags' inner); ("parentheses", VBool flag)]
  end.

(** [s] between one pair of parentheses for each set flag. *)
Fixpoint parenthesized (flags : list bool) (s : string) : string :=
  match flags with
  | [] => s
  | true :: flags' => "(" ++ parenthesized flags' s ++ ")"
  | false :: flags' => parenthesized flags' s
  end.

(** A text that follows others after a space, when there is one. *)
Definition spaced (segment : option string) : string :=
  match segment with
  | Some s => " " ++ s
  | None => ""
  end.

(** A segment of the final join: a text that is kept, or a value that is
    dropped. *)
Definition renders (v : value) (segment : option string) : Prop :=
  match segment with
  | Some s => v = VStr s /\ s <> ""
  | None => hasVal v = false
  end.

(** The texts of the segments that are kept, in their order. *)
Fixpoint kept (segments : list (option string)) : list string :=
  match segments with
  | [] => []
  | Some s :: rest => s :: kept rest
  | None :: rest => kept rest
  end.

(** ** A plain instance of the collaborators

    Expression, literal and identifier nodes given as their own text (or as
    an integer) and rendered as that text, unquoted.  The instance is used
    to run the renderers on concrete trees. *)
Module Plain.

Definition text (v : value) : value :=
  match v with
  | VStr s => VStr s
  | VNum n => VStr (string_of_Z n)
  | _ => VUndef
  end.

Definition triple (v : value) : list value :=
  match v with
  | VArr items => map text items
  | _ => []
  end.

Definition collaborators : Collaborators := {|
  exprToSQL := text;
  identifierToSql := text;
  columnRefToSQL := text;
  binaryToSQL := text;
  valuesToSQL := text;
  intervalToSQL := text;
  literalToSQL := text;
  commonTypeValue := triple
|}.

End Plain.

(** ** Properties *)

Section Properties.

Context {collaborators : Collaborators}.

(** *** Basic facts *)

Lemma get_field (o : value) (k : string) :
  nullish o = false -> get o k = Ok (field o k).
Proof. unfold get; intros ->; reflexivity. Qed.

Lemma get_obj (fields : list (string * value)) (k : string) :
  get (VObj fields) k = Ok (lookup fields k).
Proof. reflexivity. Qed.

Lemma get_ok_inv (o : value) (k : string) (v : value) :
  get o k = Ok v -> nullish o = false /\ v = field o k.
Proof.
  unfold get; destruct (nullish o); intros E; [discriminate|].
  injection E as <-; auto.
Qed.

Lemma string_append_assoc (a b c : string) : (a ++ b) ++ c = a ++ b ++ c.
Proof. induction a as [|x a IH]; cbn; [reflexivity|now rewrite IH]. Qed.

Lemma string_append_nil_r (a : string) : a ++ "" = a.
Proof. induction a as [|x a IH]; cbn; [reflexivity|now rewrite IH]. Qed.

(** Equality of texts up to the nesting of appends. *)
Ltac same_text :=
  rewrite ?string_append_assoc, ?string_append_nil_r; reflexivity.

Lemma truthy_not_nullish (v : value) : truthy v = true -> nullish v = false.
Proof. destruct v; simpl; congruence. Qed.

(** The wrapper branch of [tablesToSQL], with the recursive call on the
    [expr] property. *)
Lemma tablesToSQL_obj (fields : list (string * value)) :
  tablesToSQL (VObj fields) =
    (sql <- tablesToSQL (lookup fields "expr") ;;
     if truthy (lookup fields "parentheses")
     then Ok (VStr ("(" ++ to_string sql ++ ")"))
     else Ok sql).
Proof.
  cbn [tablesToSQL truthy negb].
  f_equal.
  induction fields as [|[k v] fs IH]; [reflexivity|].
  cbn [lookup]; destruct (String.eqb k "expr"); [reflexivity|exact IH].
Qed.

Lemma tablesToSQL_arr (items : list value) :
  tablesToSQL (VArr items) = chainToSQL items.
Proof. reflexivity. Qed.

Lemma lookup_Forall (P : value -> Prop) (fields : list (string * value)) (k : string) :
  P VUndef -> Forall (fun kv => P (snd kv)) fields -> P (lookup fields k).
Proof.
  intros Hu Hall; induction Hall as [|[k' v] fs Hv _ IH]; [exact Hu|].
  cbn [lookup]; destruct (String.eqb k' k); [exact Hv|exact IH].
Qed.

Lemma chainToSQL_string (items : list value) (r : value) :
  chainToSQL items = Ok r -> exists s, r = VStr s.
Proof.
  unfold chainToSQL.
  destruct (get (hd VUndef items) "type") as [t|]; [|discriminate]; cbn [bind].
  destruct (strict_eq t "dual").
  - intros E; injection E as <-; eauto.
  - destruct (tableToSQL (hd VUndef items)); [|discriminate]; cbn [bind].
    destruct (mapM joinClause (tl items)); [|discriminate]; cbn [bind].
    intros E; injection E as <-; eauto.
Qed.

(** Whatever [tablesToSQL] returns is text. *)
Lemma tablesToSQL_string (tables r : value) :
  tablesToSQL tables = Ok r -> exists s, r = VStr s.
Proof.
  revert r.
  induction tables as [| |b|n|s|items _|fields IH|name] using value_induction;
    intros r; try (cbn; intros E; injection E as <-; eauto; fail).
  - cbn; destruct b; cbn; intros E; injection E as <-; eauto.
  - cbn; destruct (negb (n =? 0)%Z); cbn; intros E; injection E as <-; eauto.
  - cbn; destruct (negb (s =? "")); cbn; intros E; injection E as <-; eauto.
  - rewrite tablesToSQL_arr; apply chainToSQL_string.
  - rewrite tablesToSQL_obj.
    pose proof (lookup_Forall
                  (fun v => forall r, tablesToSQL v = Ok r -> exists s, r = VStr s)
                  fields "expr") as Hexpr.
    cbn beta in Hexpr.
    assert (Hu : forall r, tablesToSQL VUndef = Ok r -> exists s, r = VStr s)
      by (intros r0 E; injection E as <-; eauto).
    specialize (Hexpr Hu IH).
    destruct (tablesToSQL (lookup fields "expr")) as [sql|]; [|discriminate].
    cbn [bind].
    destruct (truthy (lookup fields "parentheses")).
    + intros E; injection E as <-; eauto.
    + intros E; injection E as <-.
      apply Hexpr; reflexivity.
Qed.

(** *** The dual short-circuit *)

(** C1.  A chain given as a non-empty array whose first entry carries the
    type tag [dual] renders to exactly [DUAL], whatever the entries after
    the first are. *)
Theorem tablesToSQL_dual (first : value) (rest : list value) :
  get first "type" = Ok (VStr "dual") ->
  tablesToSQL (VArr (first :: rest)) = Ok (VStr "DUAL").
Proof.
  intros Htype.
  rewrite tablesToSQL_arr; unfold chainToSQL; cbn [hd].
  rewrite Htype; reflexivity.
Qed.

(** C10.  The short-circuit compares the type tag with the lowercase
    string [dual] by strict equality: a first entry whose tag is anything
    else, another casing included, is rendered as an ordinary table
    followed by the clauses of the later entries.  The UNNEST dispatch of
    [tableToSQL] compares the uppercased tag instead, so it takes every
    casing of [unnest]. *)
Theorem dual_exact_unnest_any_case
    (first : value) (rest : list value) (tag : value)
    (tableInfo : value) (unnestTag : string) :
  get first "type" = Ok tag ->
  tag <> VStr "dual" ->
  get tableInfo "type" = Ok (VStr unnestTag) ->
  toUpperCase unnestTag = "UNNEST" ->
  tablesToSQL (VArr (first :: rest)) =
    (base <- tableToSQL first ;;
     joins <- mapM joinClause rest ;;
     Ok (VStr (filter_join "" (base :: joins))))
  /\ tableToSQL tableInfo = unnestToSQL tableInfo.
Proof.
  intros Htag Hneq Htype Hupper; split.
  - rewrite tablesToSQL_arr; unfold chainToSQL; cbn [hd tl].
    rewrite Htag; cbn [bind].
    destruct (strict_eq tag "dual") eqn:E; [|reflexivity].
    exfalso; apply Hneq.
    destruct tag; try discriminate.
    cbn in E; apply String.eqb_eq in E; now subst.
  - unfold tableToSQL; rewrite Htype; cbn [bind toUpper strict_eq].
    rewrite Hupper; reflexivity.
Qed.

(** *** Parenthesized wrappers *)

(** C4.  For a wrapper node with [parentheses: true], the output of
    [tablesToSQL] is the output for its [expr] between one opening and one
    closing parenthesis; when rendering [expr] throws, so does the
    wrapper. *)
Theorem tablesToSQL_parentheses (fields : list (string * value)) :
  lookup fields "parentheses" = VBool true ->
  match tablesToSQL (lookup fields "expr") with
  | Ok inner =>
      exists sql, inner = VStr sql
                  /\ tablesToSQL (VObj fields) = Ok (VStr ("(" ++ sql ++ ")"))
  | TypeError => tablesToSQL (VObj fields) = TypeError
  end.
Proof.
  intros Hparen.
  rewrite tablesToSQL_obj, Hparen.
  destruct (tablesToSQL (lookup fields "expr")) as [inner|] eqn:E; [|reflexivity].
  destruct (tablesToSQL_string _ _ E) as [sql ->].
  exists sql; split; reflexivity.
Qed.

(** *** Unsupported discriminants *)

Lemma strict_eq_false (v : value) (lit : string) :
  v <> VStr lit -> strict_eq v lit = false.
Proof.
  intros Hneq; destruct v; try reflexivity.
  cbn; destruct (String.eqb_spec s lit); [subst; contradiction|reflexivity].
Qed.

Lemma operatorToSQL_unsupported (operator : value) :
  truthy operator = true ->
  ~ In (field operator "type") [VStr "pivot"; VStr "unpivot"] ->
  operatorToSQL operator = Ok (VStr "").
Proof.
  intros Htruthy Htype.
  unfold operatorToSQL; rewrite Htruthy; cbn [negb].
  rewrite get_field by now apply truthy_not_nullish.
  cbn [bind].
  rewrite !strict_eq_false; [reflexivity| |]; intros E; apply Htype; cbn; auto.
Qed.

Lemma temporalTableOptionToSQL_unsupported (stmt : value) :
  nullish stmt = false ->
  ~ In (field stmt "keyword")
       [VStr "as"; VStr "from_to"; VStr "between_and"; VStr "contained"] ->
  temporalTableOptionToSQL stmt = Ok (VStr "").
Proof.
  intros Hstmt Hkeyword.
  unfold temporalTableOptionToSQL; rewrite get_field by assumption.
  cbn [bind].
  rewrite !strict_eq_false; [reflexivity| | | |];
    intros E; apply Hkeyword; cbn; auto.
Qed.

Lemma lookup_remove_other (fields : list (string * value)) (k k' : string) :
  String.eqb k' k = false ->
  lookup (filter (fun kv => negb (String.eqb (fst kv) k)) fields) k' = lookup fields k'.
Proof.
  intros Hneq; induction fields as [|[k0 v] fs IH]; [reflexivity|].
  cbn [filter fst lookup].
  destruct (String.eqb_spec k0 k) as [->|Hk0]; cbn [negb].
  - rewrite String.eqb_sym, Hneq; exact IH.
  - cbn [lookup]; rewrite IH; reflexivity.
Qed.

Lemma lookup_remove_same (fields : list (string * value)) (k : string) :
  lookup (filter (fun kv => negb (String.eqb (fst kv) k)) fields) k = VUndef.
Proof.
  induction fields as [|[k0 v] fs IH]; [reflexivity|].
  cbn [filter fst].
  destruct (String.eqb_spec k0 k) as [->|Hk0]; cbn [negb]; [exact IH|].
  cbn [lookup]; destruct (String.eqb_spec k0 k); [contradiction|exact IH].
Qed.

Lemma unnestToSQL_remove (fields : list (string * value)) (k : string) :
  forallb (fun k' => negb (String.eqb k' k)) ["type"; "as"; "expr"; "with_offset"] = true ->
  unnestToSQL (remove_field k (VObj fields)) = unnestToSQL (VObj fields).
Proof.
  intros Hk; cbn [forallb] in Hk.
  repeat (apply andb_prop in Hk; destruct Hk as [?H Hk]).
  repeat match goal with H : negb _ = true |- _ => apply negb_true_iff in H end.
  unfold unnestToSQL, remove_field.
  rewrite !get_obj, !lookup_remove_other by assumption.
  reflexivity.
Qed.

Ltac peel_binds :=
  repeat first
    [ reflexivity
    | match goal with
      | |- bind ?e _ = bind ?e _ => destruct e; cbn [bind]
      | |- (if ?c then _ else _) = (if ?c then _ else _) => destruct c
      end ].

Lemma tableToSQL_drops_operator (fields : list (string * value)) :
  truthy (lookup fields "operator") = true ->
  ~ In (field (lookup fields "operator") "type") [VStr "pivot"; VStr "unpivot"] ->
  tableToSQL (VObj fields) = tableToSQL (remove_field "operator" (VObj fields)).
Proof.
  intros Htruthy Htype.
  pose proof (operatorToSQL_unsupported _ Htruthy Htype) as Hop.
  unfold tableToSQL.
  rewrite unnestToSQL_remove by reflexivity.
  unfold remove_field.
  rewrite !get_obj, lookup_remove_same, !lookup_remove_other by reflexivity.
  cbn [bind]; rewrite Hop.
  change (operatorToSQL VUndef) with (Ok VUndef : result value).
  peel_binds.
  destruct (truthy (lookup fields "table_hint")); cbn [bind].
  - destruct (get (lookup fields "table_hint") "keyword") as [hint_keyword|];
      cbn [bind]; [|reflexivity].
    destruct (toUpper hint_keyword); cbn [bind]; [|reflexivity].
    destruct (get (lookup fields "table_hint") "expr") as [hint_expr|];
      cbn [bind]; [|reflexivity].
    destruct (call_map hint_expr tableHintToSQL); cbn [bind]; [|reflexivity].
    unfold filter_join; rewrite !filter_app; reflexivity.
  - unfold filter_join; rewrite !filter_app; reflexivity.
Qed.

(** [toUpper] of an absent value: no fault, and nothing to keep. *)
Lemma falsy_toUpper (v : value) :
  truthy v = false ->
  exists upper, toUpper v = Ok upper /\ hasVal upper = false.
Proof.
  intros Hv; destruct v as [| |b|n|s| | |]; try discriminate;
    unfold toUpper; try rewrite Hv; eauto.
  cbn in Hv; apply negb_false_iff, String.eqb_eq in Hv; subst; eauto.
Qed.

Lemma hasVal_str (s : string) : s <> "" -> hasVal (VStr s) = true.
Proof.
  intros Hs; cbn; destruct (String.eqb_spec s ""); [contradiction|reflexivity].
Qed.

Lemma toUpperCase_nonempty (s : string) : s <> "" -> toUpperCase s <> "".
Proof. destruct s; [contradiction|discriminate]. Qed.

Lemma filter_join_single (sep s : string) : filter_join sep [VStr s] = s.
Proof.
  unfold filter_join; cbn.
  destruct (String.eqb_spec s "") as [->|_]; reflexivity.
Qed.

Lemma temporalTableToSQL_unsupported (outer stmt : value) (K : string) :
  get outer "keyword" = Ok (VStr K) ->
  get outer "expr" = Ok stmt ->
  nullish stmt = false ->
  ~ In (field stmt "keyword")
       [VStr "as"; VStr "from_to"; VStr "between_and"; VStr "contained"] ->
  temporalTableToSQL outer = Ok (VStr (toUpperCase K)).
Proof.
  intros Hkeyword Hexpr Hstmt Hunsupported.
  unfold temporalTableToSQL.
  assert (Houter : truthy outer = true).
  { pose proof (get_ok_inv _ _ _ Hkeyword) as [_ Hk].
    destruct outer; try discriminate; reflexivity. }
  rewrite Houter, Hkeyword, Hexpr; cbn [negb bind].
  rewrite temporalTableOptionToSQL_unsupported by assumption.
  cbn [bind toUpper]; f_equal; f_equal.
  unfold filter_join; cbn [filter].
  change (hasVal (VStr "")) with false; cbn iota.
  apply (filter_join_single " ").
Qed.

(** Stepping through [filter hasVal] one segment at a time. *)
Lemma filter_cons_keep (v : value) (l : list value) :
  hasVal v = true -> filter hasVal (v :: l) = v :: filter hasVal l.
Proof. intros H; cbn [filter]; rewrite H; reflexivity. Qed.

Lemma filter_cons_drop (v : value) (l : list value) :
  hasVal v = false -> filter hasVal (v :: l) = filter hasVal l.
Proof. intros H; cbn [filter]; rewrite H; reflexivity. Qed.

Lemma append_nonempty_l (a b : string) : a <> "" -> a ++ b <> "".
Proof. destruct a; [contradiction|discriminate]. Qed.

Lemma append_nonempty_r (a b : string) : b <> "" -> a ++ b <> "".
Proof. destruct a; [trivial|discriminate]. Qed.

Ltac nonempty :=
  first [ assumption
        | discriminate
        | apply toUpperCase_nonempty; nonempty
        | apply append_nonempty_l; nonempty
        | apply append_nonempty_r; nonempty ].

Ltac present :=
  first [ assumption | reflexivity | apply hasVal_str; nonempty ].

Ltac segments :=
  unfold filter_join; cbn [app];
  repeat first [ rewrite filter_cons_keep by present
               | rewrite filter_cons_drop by present ];
  cbn [filter array_join map join_item nullish to_string String.concat].

Lemma js_and_present (s : string) (v : value) : s <> "" -> js_and (VStr s) v = v.
Proof. intros Hs; unfold js_and; rewrite (hasVal_str s Hs : truthy _ = true); reflexivity. Qed.

(** The name of a node that has a [table] and no other naming part, no
    [expr], no [prefix] and no [suffix]. *)
Lemma table_name_only (t T : string) :
  t <> "" -> identifierToSql (VStr t) = VStr T -> T <> "" ->
  hasVal (identifierToSql VUndef) = false ->
  filter_join "."
    [ identifierToSql VUndef; identifierToSql VUndef; identifierToSql VUndef;
      VStr (filter_join " "
              [ VUndef; js_and (VStr t) (identifierToSql (VStr t)); VUndef ]) ]
  = T.
Proof.
  intros Ht HT HTne Habsent.
  rewrite js_and_present, HT by assumption.
  replace (filter_join " " [VUndef; VStr T; VUndef]) with T by (segments; reflexivity).
  segments; reflexivity.
Qed.

(** A node with a [table] and a temporal clause, and nothing else. *)
Lemma table_with_temporal (outer : value) (t T segment : string) :
  t <> "" -> identifierToSql (VStr t) = VStr T -> T <> "" ->
  hasVal (identifierToSql VUndef) = false ->
  temporalTableToSQL outer = Ok (VStr segment) -> segment <> "" ->
  tableToSQL (VObj [("table", VStr t); ("temporal_table", outer)])
  = Ok (VStr (T ++ " " ++ segment)).
Proof.
  intros Ht HT HTne Habsent Htemporal Hsegment.
  unfold tableToSQL.
  rewrite !get_obj.
  cbn [lookup String.eqb Ascii.eqb Bool.eqb bind toUpper strict_eq truthy].
  rewrite Htemporal, (table_name_only t T) by assumption.
  cbn [bind operatorToSQL truthy negb].
  segments; reflexivity.
Qed.

(** C3.  A pivot-operator node whose type tag is neither [pivot] nor
    [unpivot] makes [operatorToSQL] return the empty text, and a
    temporal-clause node whose inner keyword is none of [as], [from_to],
    [between_and], [contained] makes [temporalTableOptionToSQL] return
    the empty text.  Neither leaves an empty token in the output of
    [tableToSQL]: a node with such an operator renders as the same node
    without operator, and a temporal clause around such an inner node
    renders as its uppercased keyword alone, which follows the table name
    after a single space. *)
Theorem unsupported_segments_dropped
    (fields : list (string * value)) (outer stmt : value) (K : string) :
  truthy (lookup fields "operator") = true ->
  ~ In (field (lookup fields "operator") "type") [VStr "pivot"; VStr "unpivot"] ->
  nullish stmt = false ->
  ~ In (field stmt "keyword")
       [VStr "as"; VStr "from_to"; VStr "between_and"; VStr "contained"] ->
  get outer "keyword" = Ok (VStr K) ->
  get outer "expr" = Ok stmt ->
  operatorToSQL (lookup fields "operator") = Ok (VStr "")
  /\ temporalTableOptionToSQL stmt = Ok (VStr "")
  /\ tableToSQL (VObj fields) = tableToSQL (remove_field "operator" (VObj fields))
  /\ temporalTableToSQL outer = Ok (VStr (toUpperCase K))
  /\ (forall t T : string,
       K <> "" -> t <> "" ->
       identifierToSql (VStr t) = VStr T -> T <> "" ->
       hasVal (identifierToSql VUndef) = false ->
       tableToSQL (VObj [("table", VStr t); ("temporal_table", outer)])
       = Ok (VStr (T ++ " " ++ toUpperCase K))).
Proof.
  intros Hop Htype Hstmt Hinner Hkeyword Hexpr.
  refine (conj _ (conj _ (conj _ (conj _ _)))).
  - apply operatorToSQL_unsupported; assumption.
  - apply temporalTableOptionToSQL_unsupported; assumption.
  - apply tableToSQL_drops_operator; assumption.
  - eapply temporalTableToSQL_unsupported; eassumption.
  - intros t T HK Ht HT HTne Habsent.
    apply table_with_temporal; try assumption.
    + eapply temporalTableToSQL_unsupported; eassumption.
    + now apply toUpperCase_nonempty.
Qed.

(** *** Temporal clauses *)

Lemma field_str_obj (o : value) (k s : string) :
  field o k = VStr s -> nullish o = false /\ truthy o = true.
Proof.
  destruct o; cbn; try discriminate; auto.
Qed.

Lemma temporalTableToSQL_clause (outer inner : value) (K clause : string) :
  get outer "keyword" = Ok (VStr K) -> K <> "" ->
  get outer "expr" = Ok inner ->
  temporalTableOptionToSQL inner = Ok (VStr clause) -> clause <> "" ->
  temporalTableToSQL outer = Ok (VStr (toUpperCase K ++ " " ++ clause)).
Proof.
  intros Hkeyword HK Hexpr Hclause Hne.
  destruct (get_ok_inv _ _ _ Hkeyword) as [_ Hk].
  destruct (field_str_obj _ _ _ (eq_sym Hk)) as [_ Houter].
  unfold temporalTableToSQL.
  rewrite Houter, Hkeyword, Hexpr; cbn [negb bind].
  rewrite Hclause; cbn [bind toUpper].
  segments; reflexivity.
Qed.

Ltac temporal_form Hkeyword :=
  destruct (field_str_obj _ _ _ Hkeyword) as [Hinner _];
  unfold temporalTableOptionToSQL;
  rewrite !get_field by assumption;
  rewrite Hkeyword; cbn [bind strict_eq String.eqb Ascii.eqb Bool.eqb];
  repeat match goal with H : field _ _ = _ |- _ => rewrite H end;
  repeat match goal with H : exprToSQL _ = _ |- _ => rewrite H end;
  segments; reflexivity.

Lemma temporal_as (inner e : value) (E : string) :
  field inner "keyword" = VStr "as" -> field inner "of" = e ->
  exprToSQL e = VStr E -> E <> "" ->
  temporalTableOptionToSQL inner = Ok (VStr ("AS OF " ++ E)).
Proof. intros Hkeyword Hof HE HEne; temporal_form Hkeyword. Qed.

Lemma temporal_from_to (inner e1 e2 : value) (E1 E2 : string) :
  field inner "keyword" = VStr "from_to" ->
  field inner "from" = e1 -> field inner "to" = e2 ->
  exprToSQL e1 = VStr E1 -> E1 <> "" -> exprToSQL e2 = VStr E2 -> E2 <> "" ->
  temporalTableOptionToSQL inner = Ok (VStr ("FROM " ++ E1 ++ " TO " ++ E2)).
Proof. intros Hkeyword Hfrom Hto HE1 HE1ne HE2 HE2ne; temporal_form Hkeyword. Qed.

Lemma temporal_between_and (inner e1 e2 : value) (E1 E2 : string) :
  field inner "keyword" = VStr "between_and" ->
  field inner "between" = e1 -> field inner "and" = e2 ->
  exprToSQL e1 = VStr E1 -> E1 <> "" -> exprToSQL e2 = VStr E2 -> E2 <> "" ->
  temporalTableOptionToSQL inner = Ok (VStr ("BETWEEN " ++ E1 ++ " AND " ++ E2)).
Proof. intros Hkeyword Hb Ha HE1 HE1ne HE2 HE2ne; temporal_form Hkeyword. Qed.

Lemma temporal_contained (inner e : value) (E : string) :
  field inner "keyword" = VStr "contained" -> field inner "in" = e ->
  exprToSQL e = VStr E -> E <> "" ->
  temporalTableOptionToSQL inner = Ok (VStr ("CONTAINED IN " ++ E)).
Proof. intros Hkeyword Hin HE HEne; temporal_form Hkeyword. Qed.

(** C6.  [temporalTableToSQL] renders the uppercased outer keyword and,
    after a space, the clause of the inner keyword: [AS OF <expr>] for
    [as], [FROM <expr> TO <expr>] for [from_to], [BETWEEN <expr> AND
    <expr>] for [between_and], [CONTAINED IN <expr>] for [contained].  The
    node [{table: "t", temporal_table: {keyword: "for_system_time", expr:
    {keyword: "as", of: e1}}}] renders to [t FOR_SYSTEM_TIME AS OF]
    followed by the text of [e1]. *)
Theorem temporalTableToSQL_forms
    (outer inner e1 e2 : value) (K E1 E2 : string) :
  get outer "keyword" = Ok (VStr K) -> K <> "" ->
  get outer "expr" = Ok inner ->
  exprToSQL e1 = VStr E1 -> E1 <> "" ->
  exprToSQL e2 = VStr E2 -> E2 <> "" ->
  (field inner "keyword" = VStr "as" -> field inner "of" = e1 ->
   temporalTableToSQL outer = Ok (VStr (toUpperCase K ++ " AS OF " ++ E1)))
  /\ (field inner "keyword" = VStr "from_to" ->
      field inner "from" = e1 -> field inner "to" = e2 ->
      temporalTableToSQL outer
      = Ok (VStr (toUpperCase K ++ " FROM " ++ E1 ++ " TO " ++ E2)))
  /\ (field inner "keyword" = VStr "between_and" ->
      field inner "between" = e1 -> field inner "and" = e2 ->
      temporalTableToSQL outer
      = Ok (VStr (toUpperCase K ++ " BETWEEN " ++ E1 ++ " AND " ++ E2)))
  /\ (field inner "keyword" = VStr "contained" -> field inner "in" = e1 ->
      temporalTableToSQL outer = Ok (VStr (toUpperCase K ++ " CONTAINED IN " ++ E1)))
  /\ (identifierToSql (VStr "t") = VStr "t" ->
      hasVal (identifierToSql VUndef) = false ->
      tableToSQL
        (VObj [("table", VStr "t");
               ("temporal_table",
                VObj [("keyword", VStr "for_system_time");
                      ("expr", VObj [("keyword", VStr "as"); ("of", e1)])])])
      = Ok (VStr ("t FOR_SYSTEM_TIME AS OF " ++ E1))).
Proof.
  intros Hkeyword HK Hexpr HE1 HE1ne HE2 HE2ne.
  refine (conj _ (conj _ (conj _ (conj _ _)))).
  - intros Hk Hof.
    apply (temporalTableToSQL_clause outer inner K ("AS OF " ++ E1));
      try assumption; [|discriminate].
    eapply temporal_as; eassumption.
  - intros Hk Hfrom Hto.
    apply (temporalTableToSQL_clause outer inner K ("FROM " ++ E1 ++ " TO " ++ E2));
      try assumption; [|discriminate].
    eapply temporal_from_to; eassumption.
  - intros Hk Hbetween Hand.
    apply (temporalTableToSQL_clause outer inner K ("BETWEEN " ++ E1 ++ " AND " ++ E2));
      try assumption; [|discriminate].
    eapply temporal_between_and; eassumption.
  - intros Hk Hin.
    apply (temporalTableToSQL_clause outer inner K ("CONTAINED IN " ++ E1));
      try assumption; [|discriminate].
    eapply temporal_contained; eassumption.
  - intros Ht Habsent.
    apply (table_with_temporal _ "t" "t" ("FOR_SYSTEM_TIME AS OF " ++ E1));
      try assumption; try discriminate.
    apply (temporalTableToSQL_clause _ (VObj [("keyword", VStr "as"); ("of", e1)])
             "for_system_time" ("AS OF " ++ E1));
      try reflexivity; try discriminate.
    eapply temporal_as; try eassumption; reflexivity.
Qed.

(** *** Sampling *)

Lemma connector_present (keyword : string) (action : value -> value)
    (opt : value) (rendered : string) :
  truthy opt = true -> action opt = VStr rendered ->
  commonOptionConnector (VStr keyword) action opt
  = VStr (keyword ++ " " ++ rendered).
Proof.
  intros Hopt Haction; unfold commonOptionConnector.
  rewrite Hopt, Haction; reflexivity.
Qed.

(** C8, what the code does on a sampling clause.  For a base table with a
    [tablesample] field, [tableToSQL] appends the sampling clause after the
    table name and before the alias, as specified.  The clause is the word
    [TABLESAMPLE], the text of the sample expression and the text of the
    [repeatable] literal (both taken non-empty here), each after a single
    space: the seed follows the sample expression directly.  The word
    [REPEATABLE] that the specification has before the seed is written
    nowhere in the module, which writes [TABLESAMPLE], [AS], [ON] and
    [USING] before the parts they introduce. *)
Theorem tableToSQL_tablesample
    (sample e r : value) (t T E L : string) :
  t <> "" -> identifierToSql (VStr t) = VStr T -> T <> "" ->
  hasVal (identifierToSql VUndef) = false ->
  truthy sample = true ->
  field sample "expr" = e -> field sample "repeatable" = r ->
  exprToSQL e = VStr E -> E <> "" ->
  literalToSQL r = VStr L -> L <> "" ->
  tableToSQL (VObj [("table", VStr t); ("tablesample", sample)])
  = Ok (VStr (T ++ " TABLESAMPLE " ++ E ++ " " ++ L))
  /\ (forall a A : string,
       a <> "" -> identifierToSql (VStr a) = VStr A ->
       tableToSQL (VObj [("table", VStr t); ("tablesample", sample); ("as", VStr a)])
       = Ok (VStr (T ++ " TABLESAMPLE " ++ E ++ " " ++ L ++ " AS " ++ A))).
Proof.
  intros Ht HT HTne Habsent Hsample He Hr HE HEne HL HLne.
  assert (Hclause : filter_join " " [VStr "TABLESAMPLE"; exprToSQL e; literalToSQL r]
                    = "TABLESAMPLE " ++ E ++ " " ++ L)
    by (rewrite HE, HL; segments; reflexivity).
  split.
  - unfold tableToSQL.
    rewrite !get_obj.
    cbn [lookup String.eqb Ascii.eqb Bool.eqb bind toUpper strict_eq truthy].
    rewrite Hsample, !get_field by now apply truthy_not_nullish.
    cbn [bind temporalTableToSQL operatorToSQL truthy negb].
    rewrite He, Hr, Hclause, (table_name_only t T) by assumption.
    segments; reflexivity.
  - intros a A Ha HA.
    unfold tableToSQL.
    rewrite !get_obj.
    cbn [lookup String.eqb Ascii.eqb Bool.eqb bind toUpper strict_eq truthy].
    rewrite Hsample, !get_field by now apply truthy_not_nullish.
    cbn [bind temporalTableToSQL operatorToSQL truthy negb].
    rewrite He, Hr, Hclause, (table_name_only t T) by assumption.
    rewrite (connector_present "AS" identifierToSql (VStr a) A)
      by (try apply (hasVal_str a); assumption).
    segments; do 2 f_equal; same_text.
Qed.

(** *** Qualified names *)

Lemma filter_join_middle (sep s : string) :
  filter_join sep [VUndef; VStr s; VUndef] = s.
Proof. apply (filter_join_single sep s). Qed.

Lemma filter_join_tail (sep s : string) :
  filter_join sep [VStr s; VUndef; VStr ""; VUndef] = s.
Proof.
  unfold filter_join; cbn.
  destruct (String.eqb_spec s "") as [->|_]; reflexivity.
Qed.

(** A node that is not an UNNEST node and has naming parts only. *)
Lemma tableToSQL_naming_only (fields : list (string * value)) (upperType : value) :
  toUpper (lookup fields "type") = Ok upperType ->
  strict_eq upperType "UNNEST" = false ->
  Forall (fun k => lookup fields k = VUndef)
    ["expr"; "as"; "prefix"; "suffix"; "parentheses"; "tablesample";
     "temporal_table"; "table_hint"; "operator"] ->
  Forall (fun k =>
            lookup fields k = VUndef
            \/ exists s r, lookup fields k = VStr s /\ s <> ""
                           /\ identifierToSql (VStr s) = VStr r /\ r <> "")
    ["server"; "db"; "schema"; "table"] ->
  hasVal (identifierToSql VUndef) = false ->
  tableToSQL (VObj fields) = Ok (VStr (qualified_name (VObj fields))).
Proof.
  intros Hupper Htype Hoptional Hnaming Habsent.
  repeat match goal with
         | H : Forall _ (_ :: _) |- _ => inversion_clear H
         | H : Forall _ [] |- _ => clear H
         end.
  unfold tableToSQL, qualified_name, present_parts.
  rewrite !get_obj; cbn [bind field]; rewrite Hupper; cbn [bind]; rewrite Htype.
  repeat match goal with
         | H : lookup fields ?k = VUndef |- _ => rewrite !H; clear H
         end.
  cbn [truthy temporalTableToSQL operatorToSQL negb bind app
       commonOptionConnector toUpper js_and].
  repeat match goal with
         | H : _ \/ _ |- _ =>
             destruct H as [H|(?s & ?r & H & ?Hs & ?Hr & ?Hrne)]; rewrite !H; clear H
         end.
  all: cbn [js_and truthy filter nullish negb map].
  all: repeat match goal with
              | H : ?s <> "" |- context [js_and (VStr ?s) _] =>
                  rewrite (js_and_present s) by exact H
              end.
  all: repeat match goal with
              | H : identifierToSql (VStr _) = _ |- _ => rewrite !H
              end.
  all: try rewrite !filter_join_middle.
  all: try change (filter_join " " [VUndef; VUndef; VUndef]) with "".
  all: rewrite filter_join_tail; segments; reflexivity.
Qed.

(** A node that has a [table] and, besides, only fields that
    [tableToSQL] does not read. *)
Lemma tableToSQL_table_only (fields : list (string * value)) (t T : string) :
  lookup fields "table" = VStr t -> t <> "" ->
  identifierToSql (VStr t) = VStr T -> T <> "" ->
  hasVal (identifierToSql VUndef) = false ->
  Forall (fun k => lookup fields k = VUndef)
    ["type"; "server"; "db"; "schema"; "expr"; "as"; "prefix"; "suffix";
     "parentheses"; "tablesample"; "temporal_table"; "table_hint"; "operator"] ->
  tableToSQL (VObj fields) = Ok (VStr T).
Proof.
  intros Htable Ht HT HTne Habsent Hrest.
  repeat match goal with
         | H : Forall _ (_ :: _) |- _ => inversion_clear H
         | H : Forall _ [] |- _ => clear H
         end.
  rewrite (tableToSQL_naming_only fields VUndef); try assumption.
  - unfold qualified_name, present_parts; cbn [field].
    repeat match goal with
           | H : lookup fields _ = _ |- _ => rewrite !H; clear H
           end.
    cbn [filter nullish negb map]; rewrite HT; reflexivity.
  - match goal with H : lookup fields "type" = _ |- _ => rewrite H end.
    reflexivity.
  - reflexivity.
  - repeat constructor; assumption.
  - repeat (apply Forall_cons; [left; assumption|]).
    apply Forall_cons; [|constructor].
    right; exists t, T; auto.
Qed.

(** C9, as the code has it.  For a table-reference node that is not an
    UNNEST node (its type tag, uppercased, is not [UNNEST]) and in which
    [expr], [as], [prefix], [suffix], [parentheses], [tablesample],
    [temporal_table], [table_hint] and [operator] are all absent,
    [tableToSQL] renders exactly the qualified name: the naming parts
    [server], [db], [schema], [table] that are present, each as an
    identifier, joined with dots.  With an alias added, [{table: "orders",
    as: "o"}] renders to [orders AS o]. *)
Theorem tableToSQL_qualified_name
    (fields : list (string * value)) (upperType : value) :
  toUpper (lookup fields "type") = Ok upperType ->
  strict_eq upperType "UNNEST" = false ->
  Forall (fun k => lookup fields k = VUndef)
    ["expr"; "as"; "prefix"; "suffix"; "parentheses"; "tablesample";
     "temporal_table"; "table_hint"; "operator"] ->
  Forall (fun k =>
            lookup fields k = VUndef
            \/ exists s r, lookup fields k = VStr s /\ s <> ""
                           /\ identifierToSql (VStr s) = VStr r /\ r <> "")
    ["server"; "db"; "schema"; "table"] ->
  hasVal (identifierToSql VUndef) = false ->
  tableToSQL (VObj fields) = Ok (VStr (qualified_name (VObj fields)))
  /\ (identifierToSql (VStr "orders") = VStr "orders" ->
      identifierToSql (VStr "o") = VStr "o" ->
      tableToSQL (VObj [("table", VStr "orders"); ("as", VStr "o")])
      = Ok (VStr "orders AS o")).
Proof.
  intros Hupper Htype Hoptional Hnaming Habsent.
  split.
  - eapply tableToSQL_naming_only; eassumption.
  - intros Horders Ho.
    unfold tableToSQL.
    rewrite !get_obj.
    cbn [lookup String.eqb Ascii.eqb Bool.eqb bind toUpper strict_eq truthy
         temporalTableToSQL operatorToSQL negb].
    rewrite (table_name_only "orders" "orders") by (assumption || discriminate).
    rewrite (connector_present "AS" identifierToSql (VStr "o") "o")
      by (assumption || reflexivity).
    segments; reflexivity.
Qed.

(** *** UNNEST *)

(** An UNNEST node against the wording of its rendering. *)
Lemma unnestToSQL_spec
    (fields : list (string * value)) (tag E : string)
    (alias : option string) (offset : option (string * string)) :
  lookup fields "type" = VStr tag -> toUpperCase tag = "UNNEST" ->
  (lookup fields "expr" = VUndef /\ E = ""
   \/ truthy (lookup fields "expr") = true
      /\ exprToSQL (lookup fields "expr") = VStr E) ->
  match alias with
  | Some A =>
      truthy (lookup fields "as") = true
      /\ (if is_string (lookup fields "as") then identifierToSql else exprToSQL)
           (lookup fields "as") = VStr A
  | None => lookup fields "as" = VUndef
  end ->
  match offset with
  | Some (kw, ident) =>
      field (lookup fields "with_offset") "keyword" = VStr kw
      /\ truthy (field (lookup fields "with_offset") "as") = true
      /\ identifierToSql (field (lookup fields "with_offset") "as") = VStr ident
  | None => lookup fields "with_offset" = VUndef
  end ->
  tableToSQL (VObj fields) = Ok (VStr (spec_unnest E alias offset)).
Proof.
  intros Htype Hupper Hexpr Halias Hoffset.
  unfold tableToSQL.
  rewrite get_obj, Htype; cbn [bind toUpper strict_eq]; rewrite Hupper.
  cbn [String.eqb Ascii.eqb Bool.eqb].
  unfold unnestToSQL.
  rewrite !get_obj, Htype; cbn [bind toUpper to_string]; rewrite Hupper.
  assert (Hbody : to_string (js_or (js_and (lookup fields "expr")
                                      (exprToSQL (lookup fields "expr")))
                               (VStr "")) = E).
  { destruct Hexpr as [[-> ->]|[Hpresent HE]]; [reflexivity|].
    unfold js_and, js_or; rewrite Hpresent, HE.
    destruct (truthy (VStr E)) eqn:HEt; [reflexivity|].
    cbn in HEt; apply negb_false_iff, String.eqb_eq in HEt; now subst. }
  rewrite Hbody; clear Hbody Hexpr.
  destruct alias as [A|]; [destruct Halias as [Has HA]|].
  - rewrite (connector_present "AS" _ (lookup fields "as") A) by assumption.
    destruct offset as [[kw ident]|]; [destruct Hoffset as (Hkw & Hoas & Hident)|].
    + destruct (field_str_obj _ _ _ Hkw) as [Hwn Hw].
      unfold and_then; rewrite Hw, !get_field by assumption.
      cbn [bind]; rewrite Hkw; cbn [toUpper bind].
      rewrite (connector_present _ identifierToSql _ ident) by assumption.
      segments; unfold spec_unnest; do 2 f_equal; same_text.
    + rewrite Hoffset; cbn [and_then truthy bind toUpper commonOptionConnector].
      segments; unfold spec_unnest; do 2 f_equal; same_text.
  - rewrite Halias; cbn [commonOptionConnector truthy is_string].
    destruct offset as [[kw ident]|]; [destruct Hoffset as (Hkw & Hoas & Hident)|].
    + destruct (field_str_obj _ _ _ Hkw) as [Hwn Hw].
      unfold and_then; rewrite Hw, !get_field by assumption.
      cbn [bind]; rewrite Hkw; cbn [toUpper bind].
      rewrite (connector_present _ identifierToSql _ ident) by assumption.
      segments; unfold spec_unnest; do 2 f_equal; same_text.
    + rewrite Hoffset; cbn [and_then truthy bind toUpper commonOptionConnector].
      segments; unfold spec_unnest; do 2 f_equal; same_text.
Qed.

(** C7, as the code has it.  For an UNNEST node the renderer emits
    [UNNEST(<expr>)] (with nothing between the parentheses when [expr] is
    absent), then [ AS <alias>] when there is an alias, then, when there
    is a [with_offset], its keyword uppercased followed by its identifier.
    Between the offset keyword and the identifier it puts a single space
    and no [AS], and it puts no [WITH] before the keyword: with the
    keyword [offset] the node of the example renders to [UNNEST(tags) AS t
    OFFSET pos], and it renders to [UNNEST(tags) AS t WITH OFFSET AS pos]
    when the keyword is [with offset as]. *)
Theorem unnestToSQL_forms
    (fields : list (string * value)) (tag E : string)
    (alias : option string) (offset : option (string * string)) :
  lookup fields "type" = VStr tag -> toUpperCase tag = "UNNEST" ->
  (lookup fields "expr" = VUndef /\ E = ""
   \/ truthy (lookup fields "expr") = true
      /\ exprToSQL (lookup fields "expr") = VStr E) ->
  match alias with
  | Some A =>
      truthy (lookup fields "as") = true
      /\ (if is_string (lookup fields "as") then identifierToSql else exprToSQL)
           (lookup fields "as") = VStr A
  | None => lookup fields "as" = VUndef
  end ->
  match offset with
  | Some (kw, ident) =>
      field (lookup fields "with_offset") "keyword" = VStr kw
      /\ truthy (field (lookup fields "with_offset") "as") = true
      /\ identifierToSql (field (lookup fields "with_offset") "as") = VStr ident
  | None => lookup fields "with_offset" = VUndef
  end ->
  tableToSQL (VObj fields) = Ok (VStr (spec_unnest E alias offset))
  /\ (forall tags : value,
       truthy tags = true -> exprToSQL tags = VStr "tags" ->
       identifierToSql (VStr "t") = VStr "t" ->
       identifierToSql (VStr "pos") = VStr "pos" ->
       tableToSQL
         (VObj [("type", VStr "unnest"); ("expr", tags); ("as", VStr "t");
                ("with_offset", VObj [("keyword", VStr "offset"); ("as", VStr "pos")])])
       = Ok (VStr "UNNEST(tags) AS t OFFSET pos")
       /\ tableToSQL
            (VObj [("type", VStr "unnest"); ("expr", tags); ("as", VStr "t");
                   ("with_offset",
                    VObj [("keyword", VStr "with offset as"); ("as", VStr "pos")])])
          = Ok (VStr "UNNEST(tags) AS t WITH OFFSET AS pos")).
Proof.
  intros Htype Hupper Hexpr Halias Hoffset.
  split.
  - eapply unnestToSQL_spec; eassumption.
  - intros tags Htags HtagsE Ht Hpos; split.
    + apply (unnestToSQL_spec _ "unnest" "tags" (Some "t") (Some ("offset", "pos")));
        cbn [lookup String.eqb Ascii.eqb Bool.eqb field is_string]; auto.
    + apply (unnestToSQL_spec _ "unnest" "tags" (Some "t")
               (Some ("with offset as", "pos")));
        cbn [lookup String.eqb Ascii.eqb Bool.eqb field is_string]; auto.
Qed.

(** *** Join entries *)

Lemma concat_empty_sep (l : list string) :
  String.concat "" l = fold_right append "" l.
Proof.
  induction l as [|a [|b l] IH]; cbn [String.concat fold_right] in *.
  - reflexivity.
  - now rewrite string_append_nil_r.
  - now rewrite IH.
Qed.

(** Joining with the empty separator is concatenation, from which dropping
    the empty texts changes nothing. *)
Lemma filter_join_texts (texts : list string) :
  filter_join "" (map VStr texts) = String.concat "" texts.
Proof.
  unfold filter_join, array_join.
  rewrite !concat_empty_sep.
  induction texts as [|a l IH]; [reflexivity|].
  cbn [map filter hasVal truthy].
  destruct (String.eqb_spec a "") as [->|Ha]; cbn [negb map fold_right join_item].
  - exact IH.
  - cbn [nullish to_string]; now rewrite IH.
Qed.

Lemma mapM_Forall2 (f : value -> result value) (l : list value) (texts : list string) :
  Forall2 (fun x text => f x = Ok (VStr text)) l texts ->
  mapM f l = Ok (map VStr texts).
Proof.
  induction 1 as [|x text l texts Hx _ IH]; [reflexivity|].
  cbn [mapM map]; rewrite Hx, IH; reflexivity.
Qed.

Lemma joinClause_spec (fields : list (string * value)) (T : string)
    (join : option string) (on : option string) (using_ : option (list string)) :
  match join with
  | Some kw => lookup fields "join" = VStr kw /\ kw <> ""
  | None => truthy (lookup fields "join") = false
  end ->
  tableToSQL (VObj fields) = Ok (VStr T) -> T <> "" ->
  match on with
  | Some cond =>
      truthy (lookup fields "on") = true
      /\ exprToSQL (lookup fields "on") = VStr cond
  | None => truthy (lookup fields "on") = false
  end ->
  match using_ with
  | Some cols =>
      exists items,
        lookup fields "using" = VArr items
        /\ map (fun col => join_item (identifierToSql col)) items = cols
  | None => truthy (lookup fields "using") = false
  end ->
  joinClause (VObj fields) = Ok (VStr (spec_joinClause join T on using_)).
Proof.
  intros Hjoin Htable HT Hon Husing.
  unfold joinClause.
  rewrite !get_obj; cbn [bind].
  set (first := if truthy (lookup fields "join") then _ else _).
  assert (Hfirst : first = Ok (VStr (match join with
                                     | Some kw => " " ++ toUpperCase kw
                                     | None => ","
                                     end))).
  { subst first; destruct join as [kw|].
    - destruct Hjoin as [-> Hkw].
      now rewrite (hasVal_str kw Hkw : truthy _ = true).
    - now rewrite Hjoin. }
  rewrite Hfirst, Htable; clear first Hfirst Hjoin; cbn [bind app].
  set (onSQL := commonOptionConnector _ _ _).
  assert (HonSQL : onSQL = VStr (match on with
                                 | Some cond => "ON " ++ cond
                                 | None => ""
                                 end)).
  { subst onSQL; destruct on as [cond|].
    - destruct Hon as [Hpresent Hcond].
      now rewrite (connector_present "ON" exprToSQL _ cond).
    - unfold commonOptionConnector; now rewrite Hon. }
  rewrite HonSQL; clear onSQL HonSQL Hon.
  assert (Hkw : hasVal (VStr (match join with
                              | Some kw => " " ++ toUpperCase kw
                              | None => ","
                              end)) = true)
    by (destruct join; reflexivity).
  destruct using_ as [cols|].
  - destruct Husing as (items & -> & <-).
    cbn [truthy call_map_pure bind app].
    unfold array_join at 1; rewrite map_map.
    destruct on as [cond|]; segments; unfold spec_joinClause;
      do 2 f_equal; same_text.
  - rewrite Husing; cbn [bind].
    destruct on as [cond|]; segments; unfold spec_joinClause;
      do 2 f_equal; same_text.
Qed.

Lemma chainToSQL_concat (base : value) (rest : list value) (tag : value)
    (B : string) (clauses : list string) :
  get base "type" = Ok tag -> tag <> VStr "dual" ->
  tableToSQL base = Ok (VStr B) ->
  Forall2 (fun joinExpr clause => joinClause joinExpr = Ok (VStr clause))
    rest clauses ->
  tablesToSQL (VArr (base :: rest)) = Ok (VStr (B ++ String.concat "" clauses)).
Proof.
  intros Htag Hneq Hbase Hrest.
  rewrite tablesToSQL_arr; unfold chainToSQL; cbn [hd tl].
  rewrite Htag; cbn [bind]; rewrite strict_eq_false by assumption.
  rewrite Hbase, (mapM_Forall2 _ _ _ Hrest); cbn [bind].
  change (VStr B :: map VStr clauses) with (map VStr (B :: clauses)).
  rewrite filter_join_texts, !concat_empty_sep; reflexivity.
Qed.

(** C5.  The clause of a chain entry after the first is, in this order:
    the join keyword uppercased after a space, or a comma when there is no
    join keyword; the table rendering of the entry; [ON <condition>] when
    [on] is present; [USING (<col1>, <col2>, ...)] when [using] is present
    (both when both are).  The output of the chain is the rendering of the
    base table followed by the clauses, with nothing in between.  The
    chain [[{table: "orders"}, {join: "INNER JOIN", table: "customers",
    on: cond}]] renders to [orders INNER JOIN customers ON] followed by
    the text of [cond]. *)
Theorem joinClause_order
    (fields : list (string * value)) (T : string)
    (join : option string) (on : option string) (using_ : option (list string)) :
  match join with
  | Some kw => lookup fields "join" = VStr kw /\ kw <> ""
  | None => truthy (lookup fields "join") = false
  end ->
  tableToSQL (VObj fields) = Ok (VStr T) -> T <> "" ->
  match on with
  | Some text =>
      truthy (lookup fields "on") = true
      /\ exprToSQL (lookup fields "on") = VStr text
  | None => truthy (lookup fields "on") = false
  end ->
  match using_ with
  | Some cols =>
      exists items,
        lookup fields "using" = VArr items
        /\ map (fun col => join_item (identifierToSql col)) items = cols
  | None => truthy (lookup fields "using") = false
  end ->
  joinClause (VObj fields) = Ok (VStr (spec_joinClause join T on using_))
  /\ (forall (base tag : value) (rest : list value)
             (B : string) (clauses : list string),
       get base "type" = Ok tag -> tag <> VStr "dual" ->
       tableToSQL base = Ok (VStr B) ->
       Forall2 (fun joinExpr clause => joinClause joinExpr = Ok (VStr clause))
         rest clauses ->
       tablesToSQL (VArr (base :: rest)) = Ok (VStr (B ++ String.concat "" clauses)))
  /\ (forall cond : value,
       identifierToSql (VStr "orders") = VStr "orders" ->
       identifierToSql (VStr "customers") = VStr "customers" ->
       hasVal (identifierToSql VUndef) = false ->
       truthy cond = true ->
       exprToSQL cond = VStr "orders.id = customers.id" ->
       tablesToSQL
         (VArr [ VObj [("table", VStr "orders")];
                 VObj [("join", VStr "INNER JOIN"); ("table", VStr "customers");
                       ("on", cond)] ])
       = Ok (VStr "orders INNER JOIN customers ON orders.id = customers.id")).
Proof.
  intros Hjoin Htable HT Hon Husing.
  refine (conj _ (conj _ _)).
  - apply joinClause_spec; assumption.
  - intros base tag rest B clauses Htag Hneq Hbase Hrest.
    eapply chainToSQL_concat; eassumption.
  - intros cond Horders Hcustomers Habsent Hcond HcondE.
    apply (chainToSQL_concat _ _ VUndef "orders"
             [" INNER JOIN customers ON orders.id = customers.id"]).
    + reflexivity.
    + discriminate.
    + apply (tableToSQL_table_only _ "orders" "orders");
        try assumption; try reflexivity; try discriminate.
      repeat constructor.
    + constructor; [|constructor].
      apply (joinClause_spec _ "customers" (Some "INNER JOIN")
               (Some "orders.id = customers.id") None);
        cbn [lookup String.eqb Ascii.eqb Bool.eqb truthy]; auto.
      * split; [reflexivity|discriminate].
      * apply (tableToSQL_table_only _ "customers" "customers");
          try assumption; try reflexivity; try discriminate.
        repeat constructor.
      * discriminate.
Qed.

(** *** Completion *)






Lemma get_nullish (o : value) (k : string) :
  nullish o = true -> get o k = TypeError.
Proof. unfold get; intros ->; reflexivity. Qed.


(** [toUpper] returns on the keywords it takes, and only on them. *)
Lemma toUpper_keyword (v : value) :
  toUpper v
  = if keyword_ok v
    then Ok (match v with VStr s => VStr (toUpperCase s) | _ => VUndef end)
    else TypeError.
Proof.
  destruct v as [| |b|n|s| | |]; try reflexivity.
  - destruct b; reflexivity.
  - unfold toUpper, keyword_ok; cbn [truthy is_string].
    destruct (n =? 0)%Z; reflexivity.
  - unfold toUpper, keyword_ok; cbn [is_string].
    now rewrite orb_true_r.
Qed.














Lemma unnest_tag_upper (type : value) :
  strict_eq (match type with VStr s => VStr (toUpperCase s) | _ => VUndef end)
    "UNNEST"
  = unnest_tag type.
Proof. destruct type; reflexivity. Qed.








(** *** What the renderers return *)

Ltac text_result :=
  repeat match goal with
         | |- context [bind ?e _] => destruct e; cbn [bind]
         | |- context [if ?c then _ else _] => destruct c
         end;
  try exact Logic.I; eauto.

Lemma unnestToSQL_text (unnestExpr : value) :
  match unnestToSQL unnestExpr with
  | Ok r => exists s, r = VStr s
  | TypeError => True
  end.
Proof. unfold unnestToSQL; text_result. Qed.

Lemma tableToSQL_text (tableInfo : value) :
  match tableToSQL tableInfo with
  | Ok r => exists s, r = VStr s
  | TypeError => True
  end.
Proof.
  unfold tableToSQL.
  destruct (get tableInfo "type") as [type|]; cbn [bind]; [|exact Logic.I].
  destruct (toUpper type) as [upperType|]; cbn [bind]; [|exact Logic.I].
  destruct (strict_eq upperType "UNNEST"); [apply unnestToSQL_text|].
  repeat match goal with
         | |- match bind ?e _ with _ => _ end =>
             destruct e; cbn [bind]; [|exact Logic.I]
         end.
  eauto.
Qed.

Lemma optional_renderer_text (f : value -> result value) (v : value) :
  (truthy v = false -> f v = Ok VUndef) ->
  (truthy v = true ->
   match f v with Ok r => exists s, r = VStr s | TypeError => True end) ->
  match f v with
  | Ok r => if truthy v then exists s, r = VStr s else r = VUndef
  | TypeError => True
  end.
Proof.
  intros Hfalsy Htruthy; destruct (truthy v).
  - now apply Htruthy.
  - now rewrite Hfalsy.
Qed.

(** X1.  What a renderer returns, when it returns, is text:
    [tableToSQL], [tablesToSQL], [tableOptionToSQL] and
    [tableTumbleToSQL] on every input; [operatorToSQL], [tableHintToSQL]
    and [temporalTableToSQL] on every input that is not falsy, and on a
    falsy input they return [undefined]. *)
Theorem renderers_return_text :
  (forall v, match tableToSQL v with
             | Ok r => exists s, r = VStr s | TypeError => True end)
  /\ (forall v, match tablesToSQL v with
                | Ok r => exists s, r = VStr s | TypeError => True end)
  /\ (forall v, match tableOptionToSQL v with
                | Ok r => exists s, r = VStr s | TypeError => True end)
  /\ (forall v, match tableTumbleToSQL v with
                | Ok r => exists s, r = VStr s | TypeError => True end)
  /\ (forall v, match operatorToSQL v with
                | Ok r => if truthy v then exists s, r = VStr s else r = VUndef
                | TypeError => True end)
  /\ (forall v, match tableHintToSQL v with
                | Ok r => if truthy v then exists s, r = VStr s else r = VUndef
                | TypeError => True end)
  /\ (forall v, match temporalTableToSQL v with
                | Ok r => if truthy v then exists s, r = VStr s else r = VUndef
                | TypeError => True end).
Proof.
  refine (conj _ (conj _ (conj _ (conj _ (conj _ (conj _ _)))))).
  - apply tableToSQL_text.
  - intros v; destruct (tablesToSQL v) eqn:E; [|exact Logic.I].
    eapply tablesToSQL_string; eassumption.
  - intros v; unfold tableOptionToSQL; text_result.
  - intros v; unfold tableTumbleToSQL; text_result.
  - intros v; apply optional_renderer_text; unfold operatorToSQL; intros ->;
      cbn [negb]; [reflexivity|].
    unfold pivotOperatorToSQL; text_result.
  - intros v; apply optional_renderer_text; unfold tableHintToSQL; intros ->;
      cbn [negb]; [reflexivity|].
    text_result.
  - intros v; apply optional_renderer_text; unfold temporalTableToSQL; intros ->;
      cbn [negb]; [reflexivity|].
    text_result.
Qed.

(** *** Pivot operators *)

(** X2.  For an operator tagged [pivot] or [unpivot], [operatorToSQL]
    renders the uppercased tag and, in parentheses, the expression, the
    word [FOR], the column and the [in_expr] separated by single spaces,
    then [ AS <alias>] when there is an alias.  The pieces are joined
    without filtering: one that renders to nothing still has its space. *)
Theorem operatorToSQL_pivot (operator : value) (tag : string) :
  field operator "type" = VStr tag ->
  tag = "pivot" \/ tag = "unpivot" ->
  operatorToSQL operator
  = Ok (VStr (toUpperCase tag ++ "("
              ++ join_item (exprToSQL (field operator "expr")) ++ " FOR "
              ++ join_item (columnRefToSQL (field operator "column")) ++ " "
              ++ join_item (binaryToSQL (field operator "in_expr")) ++ ")"
              ++ (if truthy (field operator "as")
                  then " AS " ++ join_item (identifierToSql (field operator "as"))
                  else ""))).
Proof.
  intros Htype Htag.
  destruct (field_str_obj _ _ _ Htype) as [Hnull Htruthy].
  unfold operatorToSQL; rewrite Htruthy; cbn [negb].
  rewrite get_field, Htype by assumption; cbn [bind].
  replace (strict_eq (VStr tag) "pivot" || strict_eq (VStr tag) "unpivot") with true
    by (destruct Htag as [-> | ->]; reflexivity).
  unfold pivotOperatorToSQL.
  rewrite !get_field, Htype by assumption; cbn [bind toUpper to_string].
  destruct (truthy (field operator "as"));
    cbn [app array_join map join_item nullish to_string String.concat];
    do 2 f_equal; same_text.
Qed.

(** *** Table hints *)

Lemma upper_lower_ascii (c : ascii) : upper_ascii (lower_ascii c) = upper_ascii c.
Proof. destruct c as [[] [] [] [] [] [] [] []]; reflexivity. Qed.

Lemma toUpperCase_toLowerCase (s : string) :
  toUpperCase (toLowerCase s) = toUpperCase s.
Proof.
  unfold toUpperCase, toLowerCase.
  induction s as [|c s IH]; [reflexivity|].
  cbn [string_map]; now rewrite upper_lower_ascii, IH.
Qed.

Lemma toUpperCase_of_lower (s lit : string) :
  toLowerCase s = lit -> toUpperCase s = toUpperCase lit.
Proof. intros <-; symmetry; apply toUpperCase_toLowerCase. Qed.

(** X3.  The keyword of a table hint is matched in any casing and is
    emitted in upper case.  [forceseek] renders [FORCESEEK (<index>
    (<col1>, <col2>, ...))], columns that render to nothing being left
    out; [spatial_window_max_cells] renders the keyword, [=] and the
    expression. *)
Theorem tableHintToSQL_keyword_forms (hint : value) (kw : string) :
  field hint "keyword" = VStr kw ->
  (toLowerCase kw = "forceseek" ->
   forall cols, field hint "index_columns" = VArr cols ->
   tableHintToSQL hint
   = Ok (VStr ("FORCESEEK (" ++ to_string (identifierToSql (field hint "index"))
               ++ " (" ++ filter_join ", " (map exprToSQL cols) ++ "))")))
  /\ (toLowerCase kw = "spatial_window_max_cells" ->
      forall E, exprToSQL (field hint "expr") = VStr E -> E <> "" ->
      tableHintToSQL hint = Ok (VStr ("SPATIAL_WINDOW_MAX_CELLS = " ++ E))).
Proof.
  intros Hkeyword.
  destruct (field_str_obj _ _ _ Hkeyword) as [Hnull Htruthy].
  split.
  - intros Hlower cols Hcols.
    unfold tableHintToSQL; rewrite Htruthy; cbn [negb].
    rewrite !get_field, Hkeyword by assumption; cbn [bind call_toLowerCase].
    rewrite Hlower, Hcols; cbn [String.eqb Ascii.eqb Bool.eqb call_map_pure bind toUpper].
    rewrite (toUpperCase_of_lower kw "forceseek" Hlower).
    segments; do 2 f_equal; same_text.
  - intros Hlower E HE HEne.
    unfold tableHintToSQL; rewrite Htruthy; cbn [negb].
    rewrite !get_field, Hkeyword by assumption; cbn [bind call_toLowerCase].
    rewrite Hlower, HE; cbn [String.eqb Ascii.eqb Bool.eqb bind toUpper].
    rewrite (toUpperCase_of_lower kw "spatial_window_max_cells" Hlower).
    segments; reflexivity.
Qed.

(** X4.  An [index] hint (in any casing) renders the uppercased prefix
    when there is one, the word [INDEX], and either the parenthesized,
    comma-separated list of the identifiers of [expr] when [parentheses] is
    set, or [= <identifier>] of [expr] when it is not. *)
Theorem tableHintToSQL_index (hint : value) (kw : string) (prefix : option string) :
  field hint "keyword" = VStr kw ->
  toLowerCase kw = "index" ->
  match prefix with
  | Some p => field hint "prefix" = VStr p /\ p <> ""
  | None => truthy (field hint "prefix") = false
  end ->
  let pre := match prefix with Some p => toUpperCase p ++ " " | None => "" end in
  (truthy (field hint "parentheses") = true ->
   forall ids, field hint "expr" = VArr ids ->
   tableHintToSQL hint
   = Ok (VStr (pre ++ "INDEX (" ++ array_join ", " (map identifierToSql ids) ++ ")")))
  /\ (truthy (field hint "parentheses") = false ->
      tableHintToSQL hint
      = Ok (VStr (pre ++ "INDEX = " ++ to_string (identifierToSql (field hint "expr"))))).
Proof.
  intros Hkeyword Hlower Hprefix pre.
  destruct (field_str_obj _ _ _ Hkeyword) as [Hnull Htruthy].
  assert (Hpre : exists upperPrefix,
            toUpper (field hint "prefix") = Ok upperPrefix
            /\ forall last, last <> "" ->
               filter_join " " [upperPrefix; VStr "INDEX"; VStr last]
               = pre ++ "INDEX " ++ last).
  { subst pre; destruct prefix as [p|].
    - destruct Hprefix as [-> Hp]; eexists; split; [reflexivity|].
      intros last Hlast; segments; same_text.
    - destruct (falsy_toUpper _ Hprefix) as (upperPrefix & -> & Hdrop).
      eexists; split; [reflexivity|].
      intros last Hlast; segments; reflexivity. }
  destruct Hpre as (upperPrefix & Hupper & Hpre).
  split.
  - intros Hparen ids Hids.
    unfold tableHintToSQL; rewrite Htruthy; cbn [negb].
    rewrite !get_field, Hkeyword by assumption; cbn [bind call_toLowerCase].
    rewrite Hlower, Hparen, Hids, Hupper;
      cbn [String.eqb Ascii.eqb Bool.eqb call_map_pure bind toUpper].
    rewrite (toUpperCase_of_lower kw "index" Hlower).
    change (toUpperCase "index") with "INDEX".
    rewrite Hpre by discriminate.
    do 2 f_equal; same_text.
  - intros Hparen.
    unfold tableHintToSQL; rewrite Htruthy; cbn [negb].
    rewrite !get_field, Hkeyword by assumption; cbn [bind call_toLowerCase].
    rewrite Hlower, Hparen, Hupper;
      cbn [String.eqb Ascii.eqb Bool.eqb bind toUpper].
    rewrite (toUpperCase_of_lower kw "index" Hlower).
    change (toUpperCase "index") with "INDEX".
    rewrite Hpre by discriminate.
    do 2 f_equal; same_text.
Qed.

(** X5.  A table hint whose keyword is none of [forceseek],
    [spatial_window_max_cells], [index] (in any casing) renders as its
    expression alone: the keyword is not emitted. *)
Theorem tableHintToSQL_fallback (hint : value) (kw E : string) :
  field hint "keyword" = VStr kw ->
  ~ In (toLowerCase kw) ["forceseek"; "spatial_window_max_cells"; "index"] ->
  exprToSQL (field hint "expr") = VStr E ->
  tableHintToSQL hint = Ok (VStr E).
Proof.
  intros Hkeyword Hother HE.
  destruct (field_str_obj _ _ _ Hkeyword) as [Hnull Htruthy].
  unfold tableHintToSQL; rewrite Htruthy; cbn [negb].
  rewrite !get_field, Hkeyword by assumption; cbn [bind call_toLowerCase].
  repeat match goal with
         | |- context [String.eqb (toLowerCase kw) ?lit] =>
             destruct (String.eqb_spec (toLowerCase kw) lit) as [Heq|_];
             [exfalso; apply Hother; rewrite Heq; cbn; auto|]
         end.
  cbn [bind]; rewrite HE, filter_join_single; reflexivity.
Qed.

(** *** Derived tables *)

Lemma array_join_texts (sep : string) (texts : list string) :
  array_join sep (map VStr texts) = String.concat sep texts.
Proof.
  unfold array_join; rewrite map_map; cbn [join_item nullish to_string].
  now rewrite map_id.
Qed.

(** The name of a node that has an [expr] and no naming part, no [prefix]
    and no [suffix]. *)
Lemma derived_name_only (name : string) :
  hasVal (identifierToSql VUndef) = false ->
  filter_join "."
    [ identifierToSql VUndef; identifierToSql VUndef; identifierToSql VUndef;
      VStr (filter_join " " [ VUndef; VStr name; VUndef ]) ]
  = name.
Proof.
  intros Habsent; rewrite filter_join_middle.
  unfold filter_join; rewrite !filter_cons_drop by assumption.
  apply (filter_join_single "." name).
Qed.

(** A node that has an [expr] and nothing else: [Htype] gives the type tag
    of the body and [Hbody] its text. *)
Ltac derived_table Hexpr Htype Hbody Habsent :=
  unfold tableToSQL;
  rewrite !get_obj;
  cbn [lookup String.eqb Ascii.eqb Bool.eqb bind toUpper strict_eq truthy];
  rewrite Hexpr, !get_field by (now apply truthy_not_nullish);
  rewrite Htype;
  cbn [bind strict_eq String.eqb Ascii.eqb Bool.eqb];
  rewrite Hbody;
  cbn [bind temporalTableToSQL operatorToSQL truthy negb];
  rewrite derived_name_only by assumption;
  cbn [app commonOptionConnector truthy];
  rewrite filter_join_tail.

(** X6.  [tableTumbleToSQL] renders [TABLE(TUMBLE(TABLE <db>.<table>
    DESCRIPTOR(<timecol>) <size>))], the database and its dot being left
    out when there is no database; a falsy argument renders to the empty
    text.  A node whose [expr] is tagged [tumble] renders, through
    [tableToSQL], to that text. *)
Theorem tableTumbleToSQL_form
    (tumble data : value) (db : option string) (T : string) :
  truthy tumble = true ->
  field tumble "data" = data -> nullish data = false ->
  identifierToSql (field data "table") = VStr T -> T <> "" ->
  match db with
  | Some D => identifierToSql (field data "db") = VStr D /\ D <> ""
  | None => hasVal (identifierToSql (field data "db")) = false
  end ->
  let rendering :=
    "TABLE(TUMBLE(TABLE "
    ++ match db with Some D => D ++ "." | None => "" end ++ T
    ++ " DESCRIPTOR(" ++ to_string (columnRefToSQL (field tumble "timecol")) ++ ") "
    ++ to_string (intervalToSQL (field tumble "size")) ++ "))" in
  tableTumbleToSQL tumble = Ok (VStr rendering)
  /\ (forall falsy, truthy falsy = false -> tableTumbleToSQL falsy = Ok (VStr ""))
  /\ (field tumble "type" = VStr "tumble" ->
      hasVal (identifierToSql VUndef) = false ->
      tableToSQL (VObj [("expr", tumble)]) = Ok (VStr rendering)).
Proof.
  intros Htumble Hdata Hnull HT HTne Hdb rendering.
  assert (Hform : tableTumbleToSQL tumble = Ok (VStr rendering)).
  { unfold tableTumbleToSQL; rewrite Htumble; cbn [negb].
    rewrite !get_field, Hdata by now apply truthy_not_nullish.
    cbn [bind]; rewrite !get_field by assumption; cbn [bind].
    rewrite HT; subst rendering.
    destruct db as [D|].
    - destruct Hdb as [-> HD].
      replace (filter_join "." [VStr D; VStr T]) with (D ++ "." ++ T)
        by (segments; reflexivity).
      segments; do 2 f_equal; same_text.
    - replace (filter_join "." [identifierToSql (field data "db"); VStr T]) with T
        by (segments; reflexivity).
      segments; do 2 f_equal; same_text. }
  refine (conj Hform (conj _ _)).
  - intros falsy Hfalsy; unfold tableTumbleToSQL; now rewrite Hfalsy.
  - intros Htype Habsent.
    derived_table Htumble Htype Hform Habsent.
    reflexivity.
Qed.

(** X7.  A node whose [expr] is tagged [generator] renders, through
    [tableToSQL], to [<KEYWORD>(GENERATOR(<gen1>, <gen2>, ...))], each
    generator being the texts of its triple separated by single spaces. *)
Theorem tableToSQL_generator_form
    (expr : value) (K : string) (generators : list value) :
  field expr "type" = VStr "generator" ->
  field expr "keyword" = VStr K ->
  field expr "generators" = VArr generators ->
  hasVal (identifierToSql VUndef) = false ->
  tableToSQL (VObj [("expr", expr)])
  = Ok (VStr (toUpperCase K ++ "(GENERATOR("
              ++ String.concat ", "
                   (map (fun generator => array_join " " (commonTypeValue generator))
                        generators)
              ++ "))")).
Proof.
  intros Htype Hkeyword Hgenerators Habsent.
  destruct (field_str_obj _ _ _ Htype) as [Hnull Hexpr].
  assert (Hbody : generateVirtualTable expr
                  = Ok (VStr (toUpperCase K ++ "(GENERATOR("
                              ++ String.concat ", "
                                   (map (fun generator =>
                                           array_join " " (commonTypeValue generator))
                                        generators)
                              ++ "))"))).
  { unfold generateVirtualTable.
    rewrite !get_field, Htype, Hkeyword, Hgenerators by assumption.
    cbn [bind call_map_pure toUpper to_string].
    rewrite <- (array_join_texts ", "), map_map.
    do 2 f_equal; same_text. }
  derived_table Hexpr Htype Hbody Habsent.
  reflexivity.
Qed.

(** *** Table options *)

Lemma bind_ext {A B : Type} (r : result A) (k k' : A -> result B) :
  (forall a, k a = k' a) -> bind r k = bind r k'.
Proof. intros Hk; destruct r; [apply Hk|reflexivity]. Qed.

(** X8.  [tableOptionToSQL] renders the uppercased keyword, the symbol
    when there is one, and the value, separated by single spaces.  The
    value is rendered as an expression for [partition by] and [default
    collate], as the comma-separated expressions of a list for [cluster
    by], as a parenthesized, comma-separated list of [<keyword> <symbol>
    <expression>] items for [options], and as a literal for every other
    keyword.  The kind is chosen by comparing the keyword as it is
    written: [OPTIONS] in upper case is rendered as a literal. *)
Theorem tableOptionToSQL_forms (tableOption : value) (kw : string) :
  field tableOption "keyword" = VStr kw ->
  let symbol := field tableOption "symbol" in
  let value_ := field tableOption "value" in
  let head :=
    toUpperCase kw ++ (if truthy symbol then " " ++ join_item symbol else "") in
  (kw = "partition by" \/ kw = "default collate" ->
   tableOptionToSQL tableOption
   = Ok (VStr (head ++ " " ++ join_item (exprToSQL value_))))
  /\ (kw = "cluster by" ->
      forall exprs, value_ = VArr exprs ->
      tableOptionToSQL tableOption
      = Ok (VStr (head ++ " " ++ array_join ", " (map exprToSQL exprs))))
  /\ (kw = "options" ->
      forall items, value_ = VArr items ->
      forallb (fun item => negb (nullish item)) items = true ->
      tableOptionToSQL tableOption
      = Ok (VStr (head ++ " ("
                  ++ String.concat ", "
                       (map (fun item =>
                               join_item (field item "keyword") ++ " "
                               ++ join_item (field item "symbol") ++ " "
                               ++ join_item (exprToSQL (field item "value")))
                            items)
                  ++ ")")))
  /\ (~ In kw ["partition by"; "default collate"; "options"; "cluster by"] ->
      tableOptionToSQL tableOption
      = Ok (VStr (head ++ " " ++ join_item (literalToSQL value_)))).
Proof.
  intros Hkeyword symbol value_ head.
  destruct (field_str_obj _ _ _ Hkeyword) as [Hnull _].
  assert (Hjoin : forall val : value,
            array_join " "
              ((if truthy symbol then [VStr (toUpperCase kw)] ++ [symbol]
                else [VStr (toUpperCase kw)]) ++ [val])%list
            = head ++ " " ++ join_item val).
  { intros val; subst head; destruct (truthy symbol);
      cbn [app array_join map join_item nullish to_string String.concat];
      same_text. }
  assert (Hstart : forall val : result value,
            tableOptionToSQL tableOption
            = (v <- (if strict_eq (VStr kw) "partition by"
                        || strict_eq (VStr kw) "default collate"
                     then Ok (exprToSQL value_)
                     else if strict_eq (VStr kw) "options" then
                       items <- call_map value_
                                  (fun tableOptionItem =>
                                     k <- get tableOptionItem "keyword" ;;
                                     s <- get tableOptionItem "symbol" ;;
                                     v <- get tableOptionItem "value" ;;
                                     Ok (VStr (array_join " " [ k; s; exprToSQL v ]))) ;;
                       Ok (VStr ("(" ++ array_join ", " items ++ ")"))
                     else if strict_eq (VStr kw) "cluster by" then
                       exprs <- call_map_pure value_ exprToSQL ;;
                       Ok (VStr (array_join ", " exprs))
                     else Ok (literalToSQL value_)) ;;
               Ok (VStr (head ++ " " ++ join_item v)))).
  { intros _; unfold tableOptionToSQL.
    rewrite !get_field, Hkeyword by assumption; cbn [bind call_toUpperCase].
    fold symbol value_.
    apply bind_ext; intros val.
    now rewrite Hjoin. }
  rewrite (Hstart TypeError); clear Hstart Hjoin.
  refine (conj _ (conj _ (conj _ _))).
  - intros [-> | ->]; reflexivity.
  - intros -> exprs ->; reflexivity.
  - intros -> items -> Hitems.
    cbn [strict_eq String.eqb Ascii.eqb Bool.eqb orb call_map].
    assert (Hmap : mapM (fun tableOptionItem =>
                           k <- get tableOptionItem "keyword" ;;
                           s <- get tableOptionItem "symbol" ;;
                           v <- get tableOptionItem "value" ;;
                           Ok (VStr (array_join " " [ k; s; exprToSQL v ]))) items
                   = Ok (map VStr
                           (map (fun item =>
                                   join_item (field item "keyword") ++ " "
                                   ++ join_item (field item "symbol") ++ " "
                                   ++ join_item (exprToSQL (field item "value")))
                                items))).
    { induction items as [|item items IH]; [reflexivity|].
      cbn [forallb] in Hitems; apply andb_prop in Hitems as [Hitem Hitems].
      apply negb_true_iff in Hitem.
      cbn [mapM map]; rewrite !get_field by assumption; cbn [bind].
      rewrite (IH Hitems); reflexivity. }
    rewrite Hmap; cbn [bind join_item nullish to_string].
    rewrite array_join_texts.
    do 2 f_equal; same_text.
  - intros Hother.
    rewrite !(strict_eq_false (VStr kw));
      [reflexivity| | | |]; intros E; injection E as ->; apply Hother; cbn; auto.
Qed.

(** *** Fields that are read, and how *)

Ltac same_binds :=
  repeat first
    [ reflexivity
    | match goal with
      | |- context [bind ?e _] => destruct e; cbn [bind]
      | |- context [if truthy ?c then _ else _] => destruct (truthy c)
      | |- context [if strict_eq ?c ?l then _ else _] => destruct (strict_eq c l)
      end ].

(** X9.  For a node that is not an UNNEST node, a set [parentheses] field
    puts the whole rendering of the node, as it is without the field,
    between one opening and one closing parenthesis.  For an UNNEST node
    the field has no effect. *)
Theorem tableToSQL_wraps_in_parentheses (fields : list (string * value)) :
  truthy (lookup fields "parentheses") = true ->
  (unnest_tag (lookup fields "type") = false ->
   tableToSQL (VObj fields)
   = (inner <- tableToSQL (remove_field "parentheses" (VObj fields)) ;;
      Ok (VStr ("(" ++ to_string inner ++ ")"))))
  /\ (unnest_tag (lookup fields "type") = true ->
      tableToSQL (VObj fields)
      = tableToSQL (remove_field "parentheses" (VObj fields))).
Proof.
  intros Hparen; split; intros Htype.
  - unfold tableToSQL, remove_field.
    rewrite !get_obj, lookup_remove_same, !lookup_remove_other by reflexivity.
    cbn [bind]; rewrite toUpper_keyword.
    destruct (keyword_ok (lookup fields "type")); cbn [bind]; [|reflexivity].
    rewrite unnest_tag_upper, Htype, Hparen; cbn [truthy].
    same_binds.
  - unfold tableToSQL.
    rewrite unnestToSQL_remove by reflexivity.
    unfold remove_field.
    rewrite !get_obj, !lookup_remove_other by reflexivity.
    cbn [bind]; rewrite toUpper_keyword.
    destruct (keyword_ok (lookup fields "type")); cbn [bind]; [|reflexivity].
    rewrite unnest_tag_upper, Htype; reflexivity.
Qed.

(** X11.  For an UNNEST node the output of [tableToSQL] is a function of
    the fields [type], [as], [expr] and [with_offset] alone: naming parts,
    decorations, [parentheses], [operator] and hints are not read. *)
Theorem tableToSQL_unnest_reads (fields fields' : list (string * value)) :
  unnest_tag (lookup fields "type") = true ->
  Forall (fun k => lookup fields' k = lookup fields k)
    ["type"; "as"; "expr"; "with_offset"] ->
  tableToSQL (VObj fields') = tableToSQL (VObj fields).
Proof.
  intros Htype Hsame.
  repeat match goal with
         | H : Forall _ (_ :: _) |- _ => inversion_clear H
         | H : Forall _ [] |- _ => clear H
         end.
  unfold tableToSQL, unnestToSQL.
  rewrite !get_obj.
  repeat match goal with
         | H : lookup fields' _ = _ |- _ => rewrite !H; clear H
         end.
  cbn [bind]; rewrite toUpper_keyword.
  destruct (keyword_ok (lookup fields "type")); cbn [bind]; [|reflexivity].
  rewrite unnest_tag_upper, Htype; reflexivity.
Qed.

Lemma falsy_cases (v : value) :
  truthy v = false ->
  v = VUndef \/ v = VNull \/ v = VBool false \/ v = VNum 0 \/ v = VStr "".
Proof.
  destruct v as [| |b|n|s| | |]; cbn; try discriminate; auto.
  - destruct b; [discriminate|auto].
  - intros H; apply negb_false_iff, Z.eqb_eq in H; subst; auto.
  - intros H; apply negb_false_iff, String.eqb_eq in H; subst; auto 6.
Qed.

Ltac peel_convertible :=
  repeat first
    [ reflexivity
    | match goal with
      | |- bind ?e _ = bind ?e _ => destruct e; cbn [bind]
      | |- bind (if ?c then _ else _) _ = bind (if ?c then _ else _) _ =>
          destruct c; cbn [bind]
      | |- (if ?c then _ else _) = (if ?c then _ else _) => destruct c
      end ].

Ltac falsy_field k :=
  unfold tableToSQL, unnestToSQL, remove_field;
  rewrite !get_obj, lookup_remove_same, !lookup_remove_other by reflexivity;
  match goal with
  | H : truthy (lookup ?fields k) = false |- _ =>
      destruct (falsy_cases _ H) as [E|[E|[E|[E|E]]]]; rewrite !E
  end;
  cbn [bind];
  peel_convertible.

(** X10.  In [tableToSQL] a field whose value is [null], [false], [0] or
    the empty string counts as absent: for each of [type], [table], [as],
    [expr], [operator], [prefix], [suffix], [tablesample],
    [temporal_table], [table_hint] and [parentheses], the node renders as
    it does without the field. *)
Theorem tableToSQL_falsy_is_absent (fields : list (string * value)) (k : string) :
  In k ["type"; "table"; "as"; "expr"; "operator"; "prefix"; "suffix";
        "tablesample"; "temporal_table"; "table_hint"; "parentheses"] ->
  truthy (lookup fields k) = false ->
  tableToSQL (VObj fields) = tableToSQL (remove_field k (VObj fields)).
Proof.
  intros Hk Hfalsy.
  cbn [In] in Hk.
  repeat (destruct Hk as [<-|Hk]; [|]); [.. | contradiction].
  - falsy_field "type".
  - falsy_field "table".
  - falsy_field "as".
  - falsy_field "expr".
  - falsy_field "operator".
  - falsy_field "prefix".
  - falsy_field "suffix".
  - falsy_field "tablesample".
  - falsy_field "temporal_table".
  - falsy_field "table_hint".
  - falsy_field "parentheses".
Qed.

(** *** VALUES bodies *)

Lemma mapM_pure {A B : Type} (f : A -> B) (l : list A) :
  mapM (fun x => Ok (f x)) l = Ok (map f l).
Proof.
  induction l as [|x l IH]; [reflexivity|].
  cbn [mapM map bind]; now rewrite IH.
Qed.

Lemma split_on_head (prefix s : string) :
  match split_on "("%char s with
  | h :: t =>
      h ++ String.concat "" (map (fun val => prefix ++ "(" ++ val) t)
      = insert_before_paren prefix s
  | [] => False
  end.
Proof.
  induction s as [|c s IH]; [reflexivity|].
  cbn [split_on insert_before_paren].
  destruct (split_on "("%char s) as [|h t]; [contradiction|].
  destruct (Ascii.eqb c "("%char) eqn:Hc.
  - apply Ascii.eqb_eq in Hc; subst c.
    rewrite concat_empty_sep in *; cbn [map fold_right append].
    rewrite <- IH; same_text.
  - rewrite <- IH; reflexivity.
Qed.

(** The chain [split('(').slice(1).map(val => prefix + '(' + val).join('')]. *)
Lemma prefix_groups (prefix s : string) :
  String.concat "" (map (fun val => prefix ++ "(" ++ val) (tl (split_on "("%char s)))
  = insert_before_paren prefix (from_first_paren s).
Proof.
  induction s as [|c s IH]; [reflexivity|].
  cbn [split_on from_first_paren].
  pose proof (split_on_head prefix s) as Hhead.
  destruct (split_on "("%char s) as [|h t]; [contradiction|].
  destruct (Ascii.eqb c "("%char) eqn:Hc.
  - apply Ascii.eqb_eq in Hc; subst c.
    cbn [tl insert_before_paren Ascii.eqb Bool.eqb].
    rewrite concat_empty_sep in *; cbn [map fold_right].
    rewrite <- Hhead; same_text.
  - exact IH.
Qed.

(** X12.  A node whose [expr] is tagged [values] renders to [VALUES]
    followed by the text of the rows, between parentheses when the body has
    [parentheses] set.  With a row [prefix], what precedes the first
    opening parenthesis of that text is dropped and the uppercased prefix
    is put before every opening parenthesis of the rest, those nested
    inside a row included. *)
Theorem tableToSQL_values_form (expr : value) (V : string) :
  field expr "type" = VStr "values" ->
  valuesToSQL (field expr "values") = VStr V ->
  hasVal (identifierToSql VUndef) = false ->
  let wrap := fun s : string =>
    if truthy (field expr "parentheses") then "(" ++ s ++ ")" else s in
  (truthy (field expr "prefix") = false ->
   tableToSQL (VObj [("expr", expr)]) = Ok (VStr (wrap ("VALUES " ++ V))))
  /\ (forall P, field expr "prefix" = VStr P -> P <> "" ->
      tableToSQL (VObj [("expr", expr)])
      = Ok (VStr (wrap ("VALUES "
                        ++ insert_before_paren (toUpperCase P) (from_first_paren V))))).
Proof.
  intros Htype HV Habsent wrap.
  destruct (field_str_obj _ _ _ Htype) as [Hnull Hexpr].
  assert (Hwrap : forall body : string,
            filter_join ""
              [ js_and (field expr "parentheses") (VStr "(");
                VStr ("VALUES " ++ body);
                js_and (field expr "parentheses") (VStr ")") ]
            = wrap ("VALUES " ++ body)).
  { intros body; subst wrap; unfold js_and.
    destruct (truthy (field expr "parentheses")) eqn:Hparen.
    - segments; same_text.
    - unfold filter_join.
      rewrite (filter_cons_drop _ _ Hparen), filter_cons_keep by reflexivity.
      rewrite (filter_cons_drop _ _ Hparen); reflexivity. }
  split.
  - intros Hprefix.
    unfold tableToSQL.
    rewrite !get_obj.
    cbn [lookup String.eqb Ascii.eqb Bool.eqb bind toUpper strict_eq truthy].
    rewrite Hexpr, !get_field, Htype by assumption.
    cbn [bind strict_eq String.eqb Ascii.eqb Bool.eqb].
    rewrite Hprefix, HV.
    cbn [bind to_string temporalTableToSQL operatorToSQL truthy negb].
    rewrite Hwrap, derived_name_only by assumption.
    cbn [app commonOptionConnector truthy].
    rewrite filter_join_tail; reflexivity.
  - intros P HP HPne.
    unfold tableToSQL.
    rewrite !get_obj.
    cbn [lookup String.eqb Ascii.eqb Bool.eqb bind toUpper strict_eq truthy].
    rewrite Hexpr, !get_field, Htype by assumption.
    cbn [bind strict_eq String.eqb Ascii.eqb Bool.eqb].
    rewrite HP, HV, (hasVal_str P HPne : truthy (VStr P) = true).
    cbn [bind to_string call_split toUpper
         temporalTableToSQL operatorToSQL truthy negb].
    rewrite (mapM_pure (fun val => VStr (toUpperCase P ++ "(" ++ val))).
    cbn [bind to_string].
    rewrite <- (map_map (fun val => toUpperCase P ++ "(" ++ val) VStr).
    rewrite array_join_texts, prefix_groups.
    rewrite Hwrap, derived_name_only by assumption.
    cbn [app commonOptionConnector truthy].
    rewrite filter_join_tail; reflexivity.
Qed.

(** *** Chains and wrappers *)

(** X13.  Wrappers nest: a chain inside any number of wrapper objects
    renders as the chain between one pair of parentheses for each wrapper
    whose [parentheses] is set, and a wrapper around a chain that throws
    throws. *)
Theorem tablesToSQL_wrappers (flags : list bool) (inner : value) :
  match tablesToSQL inner with
  | Ok r => tablesToSQL (wrappers flags inner)
            = Ok (VStr (parenthesized flags (to_string r)))
  | TypeError => tablesToSQL (wrappers flags inner) = TypeError
  end.
Proof.
  induction flags as [|flag flags IH]; cbn [wrappers parenthesized].
  - destruct (tablesToSQL inner) as [r|] eqn:E; [|reflexivity].
    destruct (tablesToSQL_string _ _ E) as [s ->]; reflexivity.
  - rewrite tablesToSQL_obj.
    cbn [lookup String.eqb Ascii.eqb Bool.eqb].
    destruct (tablesToSQL inner) as [r|]; rewrite IH; [|reflexivity].
    destruct flag; reflexivity.
Qed.

(** X14.  A chain of one entry that is not tagged [dual] renders as the
    entry does, and throws when the entry does. *)
Theorem tablesToSQL_single (tableInfo : value) :
  strict_eq (field tableInfo "type") "dual" = false ->
  tablesToSQL (VArr [tableInfo]) = tableToSQL tableInfo.
Proof.
  intros Hdual.
  rewrite tablesToSQL_arr; unfold chainToSQL; cbn [hd tl mapM].
  destruct (nullish tableInfo) eqn:Hnull.
  - rewrite get_nullish by assumption.
    unfold tableToSQL; rewrite get_nullish by assumption; reflexivity.
  - rewrite get_field by assumption; cbn [bind]; rewrite Hdual.
    pose proof (tableToSQL_text tableInfo) as Htext.
    destruct (tableToSQL tableInfo) as [r|]; [|reflexivity].
    destruct Htext as [s ->]; cbn [bind].
    now rewrite filter_join_single.
Qed.

(** *** The order of the segments *)

Lemma array_join_spaced (T : string) (texts : list string) :
  array_join " " (map VStr (T :: texts))
  = T ++ String.concat "" (map (fun s => spaced (Some s)) texts).
Proof.
  rewrite array_join_texts, concat_empty_sep.
  revert T; induction texts as [|s texts IH]; intros T.
  - cbn; now rewrite string_append_nil_r.
  - cbn [String.concat map fold_right spaced].
    change (match texts with
            | [] => s
            | _ :: _ => s ++ " " ++ String.concat " " texts
            end) with (String.concat " " (s :: texts)).
    rewrite IH; same_text.
Qed.

Lemma filter_join_segments (T : string) (vs : list value) (segments : list (option string)) :
  T <> "" -> Forall2 renders vs segments ->
  filter_join " " (VStr T :: vs) = T ++ String.concat "" (map spaced segments).
Proof.
  intros HT Hall.
  unfold filter_join; rewrite filter_cons_keep by now apply hasVal_str.
  assert (Hkept : exists texts,
            filter hasVal vs = map VStr texts
            /\ String.concat "" (map spaced segments)
               = String.concat "" (map (fun s => spaced (Some s)) texts)).
  { induction Hall as [|v o vs os Hv _ (texts & Hf & Hc)]; [exists []; auto|].
    destruct o as [s|]; cbn [renders] in Hv.
    - destruct Hv as [-> Hs]; exists (s :: texts).
      rewrite filter_cons_keep, Hf by now apply hasVal_str.
      split; [reflexivity|].
      rewrite !concat_empty_sep in *; cbn [map fold_right]; now rewrite Hc.
    - exists texts; rewrite filter_cons_drop, Hf by assumption.
      split; [reflexivity|].
      rewrite !concat_empty_sep in *; cbn [map fold_right spaced append]; exact Hc. }
  destruct Hkept as (texts & -> & ->).
  apply (array_join_spaced T texts).
Qed.

Lemma filter_renders (vs : list value) (segments : list (option string)) :
  Forall2 renders vs segments -> filter hasVal vs = map VStr (kept segments).
Proof.
  induction 1 as [|v o vs os Hv _ IH]; [reflexivity|].
  destruct o as [s|]; cbn [renders] in Hv; cbn [kept map].
  - destruct Hv as [-> Hs].
    rewrite filter_cons_keep by now apply hasVal_str.
    now rewrite IH.
  - rewrite filter_cons_drop by assumption; exact IH.
Qed.

Lemma filter_join_kept (sep : string) (vs : list value)
    (segments : list (option string)) :
  Forall2 renders vs segments ->
  filter_join sep vs = String.concat sep (kept segments).
Proof.
  intros Hall; unfold filter_join.
  rewrite (filter_renders _ _ Hall); apply array_join_texts.
Qed.

Lemma mapM_renders (f : value -> result value) (l : list value)
    (segments : list (option string)) :
  Forall2 (fun x segment => exists r, f x = Ok r /\ renders r segment)
    l segments ->
  exists rs, mapM f l = Ok rs /\ Forall2 renders rs segments.
Proof.
  induction 1 as [|x o l os (r & Hr & Hrenders) _ (rs & Hrs & Hall)].
  - exists []; split; [reflexivity|constructor].
  - exists (r :: rs); cbn [mapM]; rewrite Hr, Hrs.
    split; [reflexivity|now constructor].
Qed.

(** X15.  The segments of a table reference come in one order: the name,
    the sampling clause, the temporal clause, [AS <alias>], the pivot
    operator, the hint keyword with the parenthesized list of the hints.
    Each is given by what its renderer returns: a text that is not empty
    is kept, after a single space; [undefined] or the empty text (an
    absent field, an operator of an unsupported type, a hint that renders
    to nothing) is dropped with its space.  The sampling clause is the
    word [TABLESAMPLE] and those of its two texts that are kept; the hint
    list has its parentheses whenever [table_hint] is there; a set
    [parentheses] encloses the whole. *)
Theorem tableToSQL_segment_order
    (fields : list (string * value)) (t T : string)
    (sample : option (option string * option string))
    (temporal alias pivot : option string)
    (hints : option (option string * list (option string))) :
  lookup fields "table" = VStr t -> t <> "" ->
  identifierToSql (VStr t) = VStr T -> T <> "" ->
  hasVal (identifierToSql VUndef) = false ->
  Forall (fun k => lookup fields k = VUndef)
    ["type"; "server"; "db"; "schema"; "expr"; "prefix"; "suffix"] ->
  match sample with
  | Some (E, L) =>
      truthy (lookup fields "tablesample") = true
      /\ renders (exprToSQL (field (lookup fields "tablesample") "expr")) E
      /\ renders (literalToSQL (field (lookup fields "tablesample") "repeatable")) L
  | None => truthy (lookup fields "tablesample") = false
  end ->
  (exists r, temporalTableToSQL (lookup fields "temporal_table") = Ok r
             /\ renders r temporal) ->
  match alias with
  | Some A => truthy (lookup fields "as") = true
              /\ identifierToSql (lookup fields "as") = VStr A
  | None => truthy (lookup fields "as") = false
  end ->
  (exists r, operatorToSQL (lookup fields "operator") = Ok r
             /\ renders r pivot) ->
  match hints with
  | Some (K, texts) =>
      truthy (lookup fields "table_hint") = true
      /\ (exists upper,
            toUpper (field (lookup fields "table_hint") "keyword") = Ok upper
            /\ renders upper K)
      /\ exists items,
           field (lookup fields "table_hint") "expr" = VArr items
           /\ Forall2 (fun hint text =>
                         exists r, tableHintToSQL hint = Ok r /\ renders r text)
                items texts
  | None => truthy (lookup fields "table_hint") = false
  end ->
  tableToSQL (VObj fields)
  = Ok (VStr
          ((fun s : string =>
              if truthy (lookup fields "parentheses") then "(" ++ s ++ ")" else s)
             (T
              ++ spaced (option_map
                           (fun '(E, L) => "TABLESAMPLE" ++ spaced E ++ spaced L)
                           sample)
              ++ spaced temporal
              ++ spaced (option_map (fun A => "AS " ++ A) alias)
              ++ spaced pivot
              ++ match hints with
                 | Some (K, texts) =>
                     spaced K ++ " (" ++ String.concat ", " (kept texts) ++ ")"
                 | None => ""
                 end))).
Proof.
  intros Htable Ht HT HTne Habsent Hnone Hsample Htemporal Halias Hpivot Hhints.
  repeat match goal with
         | H : Forall _ (_ :: _) |- _ => inversion_clear H
         | H : Forall _ [] |- _ => clear H
         end.
  unfold tableToSQL.
  rewrite !get_obj; cbn [bind].
  repeat match goal with
         | H : lookup fields ?k = VUndef |- _ => rewrite !H; clear H
         end.
  rewrite Htable.
  cbn [toUpper strict_eq truthy bind].
  rewrite (table_name_only t T) by assumption.
  (* the sampling clause *)
  set (sampleV := match sample with
                  | Some (E, L) => [VStr ("TABLESAMPLE" ++ spaced E ++ spaced L)]
                  | None => []
                  end).
  match goal with
  | |- bind ?X _ = _ =>
      assert (HX : X = Ok (VStr T :: sampleV))
  end.
  { subst sampleV; destruct sample as [[E L]|].
    - destruct Hsample as (Hts & HE & HL).
      rewrite Hts, !get_field by now apply truthy_not_nullish.
      cbn [bind].
      rewrite (filter_join_segments "TABLESAMPLE" _ [E; L]);
        [|discriminate|repeat constructor; assumption].
      rewrite concat_empty_sep; cbn [map fold_right].
      now rewrite string_append_nil_r.
    - now rewrite Hsample. }
  rewrite HX; clear HX; cbn [bind].
  (* the temporal clause, the alias and the operator *)
  destruct Htemporal as (tv & -> & Htv); cbn [bind].
  destruct Hpivot as (pv & -> & Hpv); cbn [bind].
  assert (Hav : renders (commonOptionConnector (VStr "AS") identifierToSql
                           (lookup fields "as"))
                        (option_map (fun A => "AS " ++ A) alias)).
  { destruct alias as [A|]; cbn [option_map renders].
    - destruct Halias as [Has HA].
      rewrite (connector_present "AS" identifierToSql _ A) by assumption.
      split; [reflexivity|discriminate].
    - unfold commonOptionConnector; now rewrite Halias. }
  (* the hints *)
  set (hintS := match hints with
                | Some (K, texts) =>
                    [ K; Some ("(" ++ String.concat ", " (kept texts) ++ ")") ]
                | None => []
                end).
  match goal with
  | |- bind ?X _ = _ =>
      assert (HX : exists hv,
                X = Ok (((VStr T :: sampleV)
                         ++ [tv; commonOptionConnector (VStr "AS") identifierToSql
                                   (lookup fields "as"); pv]) ++ hv)%list
                /\ Forall2 renders hv hintS)
  end.
  { subst hintS; destruct hints as [[K texts]|].
    - destruct Hhints as (Hth & (upper & Hupper & HK) & items & Hitems & Hall).
      rewrite Hth, !get_field by now apply truthy_not_nullish.
      cbn [bind]; rewrite Hupper, Hitems; cbn [bind call_map].
      destruct (mapM_renders _ _ _ Hall) as (rs & -> & Hrs); cbn [bind].
      eexists; split; [reflexivity|].
      repeat constructor; [exact HK| |discriminate].
      now rewrite (filter_join_kept ", " rs texts).
    - rewrite Hhints; exists []; rewrite app_nil_r.
      split; [reflexivity|constructor]. }
  destruct HX as (hv & -> & Hhv); cbn [bind].
  f_equal; f_equal.
  assert (Hjoin :
    filter_join " "
      (((VStr T :: sampleV)
        ++ [tv; commonOptionConnector (VStr "AS") identifierToSql (lookup fields "as");
            pv]) ++ hv)%list
    = T
      ++ spaced (option_map
                   (fun '(E, L) => "TABLESAMPLE" ++ spaced E ++ spaced L) sample)
      ++ spaced temporal
      ++ spaced (option_map (fun A => "AS " ++ A) alias)
      ++ spaced pivot
      ++ match hints with
         | Some (K, texts) =>
             spaced K ++ " (" ++ String.concat ", " (kept texts) ++ ")"
         | None => ""
         end).
  { rewrite <- !app_assoc; cbn [app].
    set (sampleS := match sample with
                    | Some (E, L) => [Some ("TABLESAMPLE" ++ spaced E ++ spaced L)]
                    | None => []
                    end).
    set (middleS := [temporal; option_map (fun A => "AS " ++ A) alias; pivot]).
    rewrite (filter_join_segments T _ (sampleS ++ middleS ++ hintS)%list HTne);
      subst sampleS middleS hintS.
    - f_equal; rewrite concat_empty_sep.
      destruct sample as [[E L]|], hints as [[K texts]|];
        cbn [app map fold_right option_map spaced]; same_text.
    - subst sampleV.
      apply Forall2_app.
      + destruct sample as [[E L]|]; repeat constructor.
        cbn; destruct E, L; discriminate.
      + repeat (apply Forall2_cons; [assumption|]); exact Hhv. }
  rewrite Hjoin.
  destruct (truthy (lookup fields "parentheses")); reflexivity.
Qed.

(** *** The name segment *)

(** X16.  The decoration keywords belong to the table part of the name:
    the uppercased [prefix] comes before the table identifier and after
    the dot of the database, the uppercased [suffix] after the table
    identifier, each separated from it by a single space. *)
Theorem tableToSQL_prefix_suffix
    (fields : list (string * value)) (t T : string)
    (db prefix suffix : option string) :
  lookup fields "table" = VStr t -> t <> "" ->
  identifierToSql (VStr t) = VStr T -> T <> "" ->
  hasVal (identifierToSql VUndef) = false ->
  Forall (fun k => lookup fields k = VUndef)
    ["type"; "server"; "schema"; "expr"; "as"; "parentheses"; "tablesample";
     "temporal_table"; "table_hint"; "operator"] ->
  match db with
  | Some D => identifierToSql (lookup fields "db") = VStr D /\ D <> ""
  | None => lookup fields "db" = VUndef
  end ->
  match prefix with
  | Some P => lookup fields "prefix" = VStr P /\ P <> ""
  | None => lookup fields "prefix" = VUndef
  end ->
  match suffix with
  | Some Sx => lookup fields "suffix" = VStr Sx /\ Sx <> ""
  | None => lookup fields "suffix" = VUndef
  end ->
  tableToSQL (VObj fields)
  = Ok (VStr (match db with Some D => D ++ "." | None => "" end
              ++ match prefix with Some P => toUpperCase P ++ " " | None => "" end
              ++ T
              ++ match suffix with Some Sx => " " ++ toUpperCase Sx | None => "" end)).
Proof.
  intros Htable Ht HT HTne Habsent Hnone Hdb Hprefix Hsuffix.
  repeat match goal with
         | H : Forall _ (_ :: _) |- _ => inversion_clear H
         | H : Forall _ [] |- _ => clear H
         end.
  unfold tableToSQL.
  rewrite !get_obj; cbn [bind].
  repeat match goal with
         | H : lookup fields ?k = VUndef |- _ => rewrite !H; clear H
         end.
  rewrite Htable, js_and_present, HT by assumption.
  set (name := match prefix with Some P => toUpperCase P ++ " " | None => "" end
               ++ T
               ++ match suffix with Some Sx => " " ++ toUpperCase Sx | None => "" end).
  assert (Hname : exists upperPrefix upperSuffix,
            toUpper (lookup fields "prefix") = Ok upperPrefix
            /\ toUpper (lookup fields "suffix") = Ok upperSuffix
            /\ filter_join " " [upperPrefix; VStr T; upperSuffix] = name).
  { subst name.
    destruct prefix as [P|], suffix as [Sx|];
      repeat match goal with
             | H : _ /\ _ |- _ => destruct H as [-> ?]
             | H : lookup fields _ = VUndef |- _ => rewrite H
             end;
      do 2 eexists; (split; [reflexivity|]); (split; [reflexivity|]);
      segments; same_text. }
  assert (Hne : name <> "").
  { subst name; destruct prefix as [P|]; cbn iota.
    - destruct Hprefix as [_ HP]; nonempty.
    - nonempty. }
  destruct Hname as (upperPrefix & upperSuffix & -> & -> & Hname).
  cbn [toUpper strict_eq truthy bind temporalTableToSQL operatorToSQL negb
       commonOptionConnector app].
  rewrite Hname.
  destruct db as [D|].
  - destruct Hdb as [-> HD].
    replace (filter_join "." [identifierToSql VUndef; VStr D;
                              identifierToSql VUndef; VStr name])
      with (D ++ "." ++ name) by (segments; reflexivity).
    rewrite filter_join_tail; subst name; do 2 f_equal; same_text.
  - rewrite Hdb.
    replace (filter_join "." [identifierToSql VUndef; identifierToSql VUndef;
                              identifierToSql VUndef; VStr name])
      with name by (segments; reflexivity).
    rewrite filter_join_tail; reflexivity.
Qed.

(** X17.  When a node has an [expr] that is not tagged [values], [tumble]
    or [generator], the text of the expression is the table part of the
    name, whatever the [table] field holds. *)
Theorem tableToSQL_expr_overrides_table
    (fields : list (string * value)) (E : string) :
  truthy (lookup fields "expr") = true ->
  ~ In (field (lookup fields "expr") "type")
       [VStr "values"; VStr "tumble"; VStr "generator"] ->
  exprToSQL (lookup fields "expr") = VStr E ->
  hasVal (identifierToSql VUndef) = false ->
  Forall (fun k => lookup fields k = VUndef)
    ["type"; "server"; "db"; "schema"; "prefix"; "suffix"; "as"; "parentheses";
     "tablesample"; "temporal_table"; "table_hint"; "operator"] ->
  tableToSQL (VObj fields) = Ok (VStr E).
Proof.
  intros Hexpr Htype HE Habsent Hnone.
  repeat match goal with
         | H : Forall _ (_ :: _) |- _ => inversion_clear H
         | H : Forall _ [] |- _ => clear H
         end.
  unfold tableToSQL.
  rewrite !get_obj; cbn [bind].
  repeat match goal with
         | H : lookup fields ?k = VUndef |- _ => rewrite !H; clear H
         end.
  cbn [toUpper strict_eq truthy bind]; rewrite Hexpr.
  rewrite get_field by now apply truthy_not_nullish.
  cbn [bind].
  rewrite !strict_eq_false by (intros Heq; apply Htype; rewrite Heq; cbn; auto).
  rewrite HE; cbn [bind toUpper temporalTableToSQL operatorToSQL truthy negb].
  rewrite derived_name_only by assumption.
  cbn [app commonOptionConnector truthy].
  rewrite filter_join_tail; reflexivity.
Qed.

End Properties.

(** ** The properties on concrete trees

    The theorems above, applied with the plain collaborators, and the
    renderings that differ from what the specification announces. *)

Section Concrete.

Local Existing Instance Plain.collaborators.

(** C1 on the chain [[{type: "dual"}, {join: "INNER JOIN", table: "x"}]]. *)
Lemma tablesToSQL_dual_witness :
  get (VObj [("type", VStr "dual")]) "type" = Ok (VStr "dual")
  /\ tablesToSQL
       (VArr [ VObj [("type", VStr "dual")];
               VObj [("join", VStr "INNER JOIN"); ("table", VStr "x")] ])
     = Ok (VStr "DUAL").
Proof.
  split; [reflexivity|].
  apply tablesToSQL_dual; reflexivity.
Defined.

(** C10 on a first entry tagged [DUAL] and on a node tagged [Unnest]. *)
Lemma dual_exact_unnest_any_case_witness :
  tablesToSQL
    (VArr [ VObj [("type", VStr "DUAL"); ("table", VStr "t")];
            VObj [("table", VStr "x")] ])
  = Ok (VStr "t, x")
  /\ tableToSQL (VObj [("type", VStr "Unnest"); ("expr", VStr "tags")])
     = Ok (VStr "UNNEST(tags)").
Proof.
  pose proof (dual_exact_unnest_any_case
                (VObj [("type", VStr "DUAL"); ("table", VStr "t")])
                [VObj [("table", VStr "x")]]
                (VStr "DUAL")
                (VObj [("type", VStr "Unnest"); ("expr", VStr "tags")])
                "Unnest") as H.
  destruct H as [Hchain Hunnest];
    [reflexivity|discriminate|reflexivity|reflexivity|].
  split.
  - rewrite Hchain; reflexivity.
  - rewrite Hunnest; reflexivity.
Defined.

(** C4 on the wrapper [{expr: [{table: "a"}, {table: "b"}],
    parentheses: true}]. *)
Lemma tablesToSQL_parentheses_witness :
  tablesToSQL (VArr [VObj [("table", VStr "a")]; VObj [("table", VStr "b")]])
  = Ok (VStr "a, b")
  /\ tablesToSQL
       (VObj [("expr", VArr [VObj [("table", VStr "a")]; VObj [("table", VStr "b")]]);
              ("parentheses", VBool true)])
     = Ok (VStr "(a, b)").
Proof.
  split; [reflexivity|].
  pose proof (tablesToSQL_parentheses
                [("expr", VArr [VObj [("table", VStr "a")]; VObj [("table", VStr "b")]]);
                 ("parentheses", VBool true)] eq_refl) as H.
  vm_compute in H.
  destruct H as (sql & Hsql & H).
  injection Hsql as <-.
  exact H.
Defined.

(** C3 on an operator tagged [bogus] and a temporal clause whose inner
    keyword is [bogus]. *)
Lemma unsupported_segments_dropped_witness :
  operatorToSQL (VObj [("type", VStr "bogus")]) = Ok (VStr "")
  /\ temporalTableOptionToSQL (VObj [("keyword", VStr "bogus")]) = Ok (VStr "")
  /\ tableToSQL (VObj [("db", VStr "d"); ("table", VStr "t"); ("as", VStr "x");
                      ("operator", VObj [("type", VStr "bogus")])])
     = Ok (VStr "d.t AS x")
  /\ tableToSQL
       (VObj [("table", VStr "t");
              ("temporal_table",
               VObj [("keyword", VStr "for_system_time");
                     ("expr", VObj [("keyword", VStr "bogus")])])])
     = Ok (VStr "t FOR_SYSTEM_TIME").
Proof.
  pose proof (unsupported_segments_dropped
                [("db", VStr "d"); ("table", VStr "t"); ("as", VStr "x");
                 ("operator", VObj [("type", VStr "bogus")])]
                (VObj [("keyword", VStr "for_system_time");
                       ("expr", VObj [("keyword", VStr "bogus")])])
                (VObj [("keyword", VStr "bogus")])
                "for_system_time") as H.
  destruct H as (Hop & Hclause & Hdrop & _ & Htemporal);
    [first [reflexivity | cbn; intuition discriminate] .. |].
  refine (conj _ (conj _ (conj _ _))).
  - exact Hop.
  - exact Hclause.
  - rewrite Hdrop; reflexivity.
  - apply (Htemporal "t" "t"); reflexivity || discriminate.
Defined.

(** C6 on the four forms and on the example. *)
Lemma temporalTableToSQL_forms_witness :
  temporalTableToSQL
    (VObj [("keyword", VStr "for_system_time");
           ("expr", VObj [("keyword", VStr "as"); ("of", VStr "ts")])])
  = Ok (VStr "FOR_SYSTEM_TIME AS OF ts")
  /\ temporalTableToSQL
       (VObj [("keyword", VStr "for_system_time");
              ("expr", VObj [("keyword", VStr "from_to");
                             ("from", VStr "ts"); ("to", VStr "te")])])
     = Ok (VStr "FOR_SYSTEM_TIME FROM ts TO te")
  /\ temporalTableToSQL
       (VObj [("keyword", VStr "for_system_time");
              ("expr", VObj [("keyword", VStr "between_and");
                             ("between", VStr "ts"); ("and", VStr "te")])])
     = Ok (VStr "FOR_SYSTEM_TIME BETWEEN ts AND te")
  /\ temporalTableToSQL
       (VObj [("keyword", VStr "for_system_time");
              ("expr", VObj [("keyword", VStr "contained"); ("in", VStr "ts")])])
     = Ok (VStr "FOR_SYSTEM_TIME CONTAINED IN ts")
  /\ tableToSQL
       (VObj [("table", VStr "t");
              ("temporal_table",
               VObj [("keyword", VStr "for_system_time");
                     ("expr", VObj [("keyword", VStr "as"); ("of", VStr "ts")])])])
     = Ok (VStr "t FOR_SYSTEM_TIME AS OF ts").
Proof.
  refine (conj _ (conj _ (conj _ (conj _ _)))).
  - destruct (temporalTableToSQL_forms
                (VObj [("keyword", VStr "for_system_time");
                       ("expr", VObj [("keyword", VStr "as"); ("of", VStr "ts")])])
                (VObj [("keyword", VStr "as"); ("of", VStr "ts")])
                (VStr "ts") (VStr "te") "for_system_time" "ts" "te")
      as (H & _); [first [reflexivity | discriminate] .. |].
    apply H; reflexivity.
  - destruct (temporalTableToSQL_forms
                (VObj [("keyword", VStr "for_system_time");
                       ("expr", VObj [("keyword", VStr "from_to");
                                      ("from", VStr "ts"); ("to", VStr "te")])])
                (VObj [("keyword", VStr "from_to");
                       ("from", VStr "ts"); ("to", VStr "te")])
                (VStr "ts") (VStr "te") "for_system_time" "ts" "te")
      as (_ & H & _); [first [reflexivity | discriminate] .. |].
    apply H; reflexivity.
  - destruct (temporalTableToSQL_forms
                (VObj [("keyword", VStr "for_system_time");
                       ("expr", VObj [("keyword", VStr "between_and");
                                      ("between", VStr "ts"); ("and", VStr "te")])])
                (VObj [("keyword", VStr "between_and");
                       ("between", VStr "ts"); ("and", VStr "te")])
                (VStr "ts") (VStr "te") "for_system_time" "ts" "te")
      as (_ & _ & H & _); [first [reflexivity | discriminate] .. |].
    apply H; reflexivity.
  - destruct (temporalTableToSQL_forms
                (VObj [("keyword", VStr "for_system_time");
                       ("expr", VObj [("keyword", VStr "contained"); ("in", VStr "ts")])])
                (VObj [("keyword", VStr "contained"); ("in", VStr "ts")])
                (VStr "ts") (VStr "te") "for_system_time" "ts" "te")
      as (_ & _ & _ & H & _); [first [reflexivity | discriminate] .. |].
    apply H; reflexivity.
  - destruct (temporalTableToSQL_forms
                (VObj [("keyword", VStr "for_system_time");
                       ("expr", VObj [("keyword", VStr "as"); ("of", VStr "ts")])])
                (VObj [("keyword", VStr "as"); ("of", VStr "ts")])
                (VStr "ts") (VStr "te") "for_system_time" "ts" "te")
      as (_ & _ & _ & _ & H); [first [reflexivity | discriminate] .. |].
    apply H; reflexivity.
Defined.

(** C5 on an entry with a join keyword, a condition and a column list, on
    a chain that also has a comma entry, and on the example. *)
Lemma joinClause_order_witness :
  joinClause
    (VObj [("join", VStr "inner join"); ("table", VStr "customers");
           ("on", VStr "orders.id = customers.id");
           ("using", VArr [VStr "id"; VStr "k"])])
  = Ok (VStr " INNER JOIN customers ON orders.id = customers.id USING (id, k)")
  /\ tablesToSQL
       (VArr [ VObj [("table", VStr "orders")];
               VObj [("join", VStr "inner join"); ("table", VStr "customers");
                     ("on", VStr "orders.id = customers.id");
                     ("using", VArr [VStr "id"; VStr "k"])];
               VObj [("table", VStr "items")] ])
     = Ok (VStr "orders INNER JOIN customers ON orders.id = customers.id USING (id, k), items")
  /\ tablesToSQL
       (VArr [ VObj [("table", VStr "orders")];
               VObj [("join", VStr "INNER JOIN"); ("table", VStr "customers");
                     ("on", VStr "orders.id = customers.id")] ])
     = Ok (VStr "orders INNER JOIN customers ON orders.id = customers.id").
Proof.
  destruct (joinClause_order
              [("join", VStr "inner join"); ("table", VStr "customers");
               ("on", VStr "orders.id = customers.id");
               ("using", VArr [VStr "id"; VStr "k"])]
              "customers" (Some "inner join")
              (Some "orders.id = customers.id") (Some ["id"; "k"]))
    as (Hclause & Hchain & Hexample);
    [first [ reflexivity | discriminate
           | split; [reflexivity|discriminate]
           | split; reflexivity
           | eexists; split; reflexivity ] .. |].
  refine (conj Hclause (conj _ _)).
  - apply (Hchain (VObj [("table", VStr "orders")]) VUndef
             [ VObj [("join", VStr "inner join"); ("table", VStr "customers");
                     ("on", VStr "orders.id = customers.id");
                     ("using", VArr [VStr "id"; VStr "k"])];
               VObj [("table", VStr "items")] ]
             "orders"
             [ " INNER JOIN customers ON orders.id = customers.id USING (id, k)";
               ", items" ]);
      first [ reflexivity | discriminate | repeat constructor ].
  - apply (Hexample (VStr "orders.id = customers.id")); reflexivity.
Defined.

(** C7, as the code has it, on a node with an alias and an offset. *)
Lemma unnestToSQL_forms_witness :
  tableToSQL
    (VObj [("type", VStr "Unnest"); ("expr", VStr "xs"); ("as", VStr "x");
           ("with_offset", VObj [("keyword", VStr "with offset"); ("as", VStr "i")])])
  = Ok (VStr "UNNEST(xs) AS x WITH OFFSET i")
  /\ tableToSQL
       (VObj [("type", VStr "unnest"); ("expr", VStr "tags"); ("as", VStr "t");
              ("with_offset", VObj [("keyword", VStr "offset"); ("as", VStr "pos")])])
     = Ok (VStr "UNNEST(tags) AS t OFFSET pos")
  /\ tableToSQL
       (VObj [("type", VStr "unnest"); ("expr", VStr "tags"); ("as", VStr "t");
              ("with_offset",
               VObj [("keyword", VStr "with offset as"); ("as", VStr "pos")])])
     = Ok (VStr "UNNEST(tags) AS t WITH OFFSET AS pos").
Proof.
  destruct (unnestToSQL_forms
              [("type", VStr "Unnest"); ("expr", VStr "xs"); ("as", VStr "x");
               ("with_offset",
                VObj [("keyword", VStr "with offset"); ("as", VStr "i")])]
              "Unnest" "xs" (Some "x") (Some ("with offset", "i")))
    as (Hgeneral & Hexamples);
    [first [ reflexivity
           | right; split; reflexivity
           | split; reflexivity
           | split; [reflexivity|split; reflexivity] ] .. |].
  split; [exact Hgeneral|].
  apply (Hexamples (VStr "tags")); reflexivity.
Defined.

(** C8 on the node of the example, [{table: "orders", tablesample:
    {expr: 10, repeatable: 5}}], alone and with an alias: the seed follows
    the sample expression bare. *)
Lemma tableToSQL_tablesample_witness :
  tableToSQL
    (VObj [("table", VStr "orders");
           ("tablesample", VObj [("expr", VNum 10); ("repeatable", VNum 5)])])
  = Ok (VStr "orders TABLESAMPLE 10 5")
  /\ tableToSQL
       (VObj [("table", VStr "orders");
              ("tablesample", VObj [("expr", VNum 10); ("repeatable", VNum 5)]);
              ("as", VStr "o")])
     = Ok (VStr "orders TABLESAMPLE 10 5 AS o").
Proof.
  destruct (tableToSQL_tablesample
              (VObj [("expr", VNum 10); ("repeatable", VNum 5)])
              (VNum 10) (VNum 5) "orders" "orders" "10" "5")
    as (Hsample & Halias);
    [first [reflexivity | discriminate] .. |].
  split; [exact Hsample|].
  apply (Halias "o" "o"); reflexivity || discriminate.
Defined.

(** C9, as the code has it, on [{server: "s", db: "d", table: "t"}]. *)
Lemma tableToSQL_qualified_name_witness :
  tableToSQL (VObj [("server", VStr "s"); ("db", VStr "d"); ("table", VStr "t")])
  = Ok (VStr "s.d.t")
  /\ tableToSQL (VObj [("table", VStr "orders"); ("as", VStr "o")])
     = Ok (VStr "orders AS o").
Proof.
  destruct (tableToSQL_qualified_name
              [("server", VStr "s"); ("db", VStr "d"); ("table", VStr "t")]
              VUndef)
    as (Hname & Halias).
  - reflexivity.
  - reflexivity.
  - repeat constructor.
  - apply Forall_cons; [right; exists "s", "s"; repeat split; discriminate|].
    apply Forall_cons; [right; exists "d", "d"; repeat split; discriminate|].
    apply Forall_cons; [left; reflexivity|].
    apply Forall_cons; [right; exists "t", "t"; repeat split; discriminate|].
    constructor.
  - reflexivity.
  - split; [exact Hname|].
    apply Halias; reflexivity.
Defined.


(** The renderers that no property above runs, on small trees. *)

Example tableHintToSQL_forceseek :
  tableHintToSQL
    (VObj [("keyword", VStr "forceseek"); ("index", VStr "ix");
           ("index_columns", VArr [VStr "a"; VStr "b"])])
  = Ok (VStr "FORCESEEK (ix (a, b))").
Proof. reflexivity. Qed.

Example tableHintToSQL_index_list :
  tableHintToSQL
    (VObj [("keyword", VStr "index"); ("prefix", VStr "with");
           ("parentheses", VBool true); ("expr", VArr [VStr "i1"; VStr "i2"])])
  = Ok (VStr "WITH INDEX (i1, i2)").
Proof. reflexivity. Qed.

Example tableHintToSQL_index_single :
  tableHintToSQL (VObj [("keyword", VStr "INDEX"); ("expr", VStr "i1")])
  = Ok (VStr "INDEX = i1").
Proof. reflexivity. Qed.

Example tableToSQL_hints :
  tableToSQL
    (VObj [("table", VStr "t");
           ("table_hint",
            VObj [("keyword", VStr "with");
                  ("expr", VArr [VObj [("keyword", VStr "nolock"); ("expr", VStr "NOLOCK")];
                                 VObj [("keyword", VStr "index"); ("expr", VStr "i1")]])])])
  = Ok (VStr "t WITH (NOLOCK, INDEX = i1)").
Proof. reflexivity. Qed.

Example tableToSQL_values_prefix :
  tableToSQL
    (VObj [("expr", VObj [("type", VStr "values"); ("values", VStr "(1,2), (3,4)");
                          ("prefix", VStr "row"); ("parentheses", VBool true)]);
           ("as", VStr "v")])
  = Ok (VStr "(VALUES ROW(1,2), ROW(3,4)) AS v").
Proof. reflexivity. Qed.

Example tableToSQL_tumble :
  tableToSQL
    (VObj [("expr", VObj [("type", VStr "tumble");
                          ("data", VObj [("db", VStr "d"); ("table", VStr "t")]);
                          ("timecol", VStr "ts"); ("size", VStr "INTERVAL '1' HOUR")])])
  = Ok (VStr "TABLE(TUMBLE(TABLE d.t DESCRIPTOR(ts) INTERVAL '1' HOUR))").
Proof. reflexivity. Qed.

Example tableToSQL_generator :
  tableToSQL
    (VObj [("expr", VObj [("type", VStr "generator"); ("keyword", VStr "table");
                          ("generators", VArr [VArr [VStr "ROWCOUNT"; VStr "=>"; VStr "10"]])])])
  = Ok (VStr "TABLE(GENERATOR(ROWCOUNT => 10))").
Proof. reflexivity. Qed.

Example tableToSQL_decorated :
  tableToSQL
    (VObj [("db", VStr "d"); ("table", VStr "t"); ("prefix", VStr "only");
           ("as", VStr "x"); ("parentheses", VBool true);
           ("operator", VObj [("type", VStr "pivot"); ("expr", VStr "SUM(v)");
                              ("column", VStr "c"); ("in_expr", VStr "IN (1, 2)");
                              ("as", VStr "p")])])
  = Ok (VStr "(d.ONLY t AS x PIVOT(SUM(v) FOR c IN (1, 2)) AS p)").
Proof. reflexivity. Qed.

Example tableOptionToSQL_options :
  tableOptionToSQL
    (VObj [("keyword", VStr "options");
           ("value", VArr [VObj [("keyword", VStr "a"); ("symbol", VStr "="); ("value", VNum 3)];
                           VObj [("keyword", VStr "b"); ("symbol", VStr "="); ("value", VStr "x")]])])
  = Ok (VStr "OPTIONS (a = 3, b = x)").
Proof. reflexivity. Qed.

Example tableOptionToSQL_literal :
  tableOptionToSQL
    (VObj [("keyword", VStr "engine"); ("symbol", VStr "="); ("value", VStr "InnoDB")])
  = Ok (VStr "ENGINE = InnoDB").
Proof. reflexivity. Qed.


(** C7 does not hold as stated: with the offset keyword [offset], the node
    of the example renders without [WITH] and without [AS] before the
    offset identifier. *)
Lemma unnest_example_renders_offset_pos :
  tableToSQL
    (VObj [("type", VStr "unnest"); ("expr", VStr "tags"); ("as", VStr "t");
           ("with_offset", VObj [("keyword", VStr "offset"); ("as", VStr "pos")])])
  = Ok (VStr "UNNEST(tags) AS t OFFSET pos")
  /\ tableToSQL
       (VObj [("type", VStr "unnest"); ("expr", VStr "tags"); ("as", VStr "t");
              ("with_offset", VObj [("keyword", VStr "offset"); ("as", VStr "pos")])])
     <> Ok (VStr "UNNEST(tags) AS t WITH OFFSET AS pos").
Proof. split; [reflexivity|discriminate]. Qed.

(** C8 fails on the node of its example: with the sample expression [10]
    and the literal [5] rendered as their digits, the output has the seed
    without the word [REPEATABLE] (and without parentheses). *)
Lemma tablesample_example_renders_digits :
  tableToSQL
    (VObj [("table", VStr "orders");
           ("tablesample", VObj [("expr", VNum 10); ("repeatable", VNum 5)])])
  = Ok (VStr "orders TABLESAMPLE 10 5")
  /\ tableToSQL
       (VObj [("table", VStr "orders");
              ("tablesample", VObj [("expr", VNum 10); ("repeatable", VNum 5)])])
     <> Ok (VStr "orders TABLESAMPLE (10) REPEATABLE (5)").
Proof. split; [reflexivity|discriminate]. Qed.

(** C9 does not hold as stated: a node tagged [unnest] in which every
    listed optional field is absent is rendered by [unnestToSQL], which
    does not read the naming parts. *)
Lemma unnest_node_is_not_named :
  Forall (fun k => lookup [("type", VStr "unnest"); ("table", VStr "orders")] k = VUndef)
    ["expr"; "as"; "prefix"; "suffix"; "parentheses"; "tablesample";
     "temporal_table"; "table_hint"; "operator"]
  /\ qualified_name (VObj [("type", VStr "unnest"); ("table", VStr "orders")])
     = "orders"
  /\ tableToSQL (VObj [("type", VStr "unnest"); ("table", VStr "orders")])
     = Ok (VStr "UNNEST()").
Proof. split; [repeat constructor|split; reflexivity]. Qed.

(** ** The further properties on concrete trees *)

(** X2 on a pivot with an alias and on an unpivot without expression. *)
Lemma operatorToSQL_pivot_witness :
  operatorToSQL
    (VObj [("type", VStr "pivot"); ("expr", VStr "SUM(v)"); ("column", VStr "c");
           ("in_expr", VStr "IN (1, 2)"); ("as", VStr "p")])
  = Ok (VStr "PIVOT(SUM(v) FOR c IN (1, 2)) AS p")
  /\ operatorToSQL
       (VObj [("type", VStr "unpivot"); ("column", VStr "c"); ("in_expr", VStr "IN (1)")])
     = Ok (VStr "UNPIVOT( FOR c IN (1))").
Proof.
  split.
  - exact (operatorToSQL_pivot
             (VObj [("type", VStr "pivot"); ("expr", VStr "SUM(v)"); ("column", VStr "c");
                    ("in_expr", VStr "IN (1, 2)"); ("as", VStr "p")])
             "pivot" eq_refl (or_introl eq_refl)).
  - exact (operatorToSQL_pivot
             (VObj [("type", VStr "unpivot"); ("column", VStr "c");
                    ("in_expr", VStr "IN (1)")])
             "unpivot" eq_refl (or_intror eq_refl)).
Defined.

(** X3 on keywords in mixed case. *)
Lemma tableHintToSQL_keyword_forms_witness :
  tableHintToSQL
    (VObj [("keyword", VStr "ForceSeek"); ("index", VStr "ix");
           ("index_columns", VArr [VStr "a"; VNull; VStr "b"])])
  = Ok (VStr "FORCESEEK (ix (a, b))")
  /\ tableHintToSQL
       (VObj [("keyword", VStr "Spatial_Window_Max_Cells"); ("expr", VNum 512)])
     = Ok (VStr "SPATIAL_WINDOW_MAX_CELLS = 512").
Proof.
  split.
  - destruct (tableHintToSQL_keyword_forms
                (VObj [("keyword", VStr "ForceSeek"); ("index", VStr "ix");
                       ("index_columns", VArr [VStr "a"; VNull; VStr "b"])])
                "ForceSeek" eq_refl) as [H _].
    exact (H eq_refl [VStr "a"; VNull; VStr "b"] eq_refl).
  - destruct (tableHintToSQL_keyword_forms
                (VObj [("keyword", VStr "Spatial_Window_Max_Cells"); ("expr", VNum 512)])
                "Spatial_Window_Max_Cells" eq_refl) as [_ H].
    apply (H eq_refl "512"); [reflexivity|discriminate].
Defined.

(** X4 on a prefixed list of indexes and on a single index. *)
Lemma tableHintToSQL_index_witness :
  tableHintToSQL
    (VObj [("keyword", VStr "Index"); ("prefix", VStr "with");
           ("parentheses", VBool true); ("expr", VArr [VStr "i1"; VStr "i2"])])
  = Ok (VStr "WITH INDEX (i1, i2)")
  /\ tableHintToSQL (VObj [("keyword", VStr "index"); ("expr", VStr "i1")])
     = Ok (VStr "INDEX = i1").
Proof.
  split.
  - destruct (tableHintToSQL_index
                (VObj [("keyword", VStr "Index"); ("prefix", VStr "with");
                       ("parentheses", VBool true); ("expr", VArr [VStr "i1"; VStr "i2"])])
                "Index" (Some "with") eq_refl eq_refl) as [H _].
    + split; [reflexivity|discriminate].
    + exact (H eq_refl [VStr "i1"; VStr "i2"] eq_refl).
  - destruct (tableHintToSQL_index
                (VObj [("keyword", VStr "index"); ("expr", VStr "i1")])
                "index" None eq_refl eq_refl eq_refl) as [_ H].
    exact (H eq_refl).
Defined.

(** X5 on a [nolock] hint. *)
Lemma tableHintToSQL_fallback_witness :
  tableHintToSQL (VObj [("keyword", VStr "nolock"); ("expr", VStr "NOLOCK")])
  = Ok (VStr "NOLOCK").
Proof.
  apply (tableHintToSQL_fallback _ "nolock" "NOLOCK").
  - reflexivity.
  - cbn; intuition discriminate.
  - reflexivity.
Defined.

(** X6 on a window over [d.t] and on one over [t]. *)
Lemma tableTumbleToSQL_form_witness :
  tableToSQL
    (VObj [("expr", VObj [("type", VStr "tumble");
                          ("data", VObj [("db", VStr "d"); ("table", VStr "t")]);
                          ("timecol", VStr "ts"); ("size", VStr "INTERVAL '1' HOUR")])])
  = Ok (VStr "TABLE(TUMBLE(TABLE d.t DESCRIPTOR(ts) INTERVAL '1' HOUR))")
  /\ tableTumbleToSQL
       (VObj [("data", VObj [("table", VStr "t")]);
              ("timecol", VStr "ts"); ("size", VStr "INTERVAL '1' HOUR")])
     = Ok (VStr "TABLE(TUMBLE(TABLE t DESCRIPTOR(ts) INTERVAL '1' HOUR))").
Proof.
  split.
  - destruct (tableTumbleToSQL_form
                (VObj [("type", VStr "tumble");
                       ("data", VObj [("db", VStr "d"); ("table", VStr "t")]);
                       ("timecol", VStr "ts"); ("size", VStr "INTERVAL '1' HOUR")])
                (VObj [("db", VStr "d"); ("table", VStr "t")])
                (Some "d") "t") as (_ & _ & H);
      [first [reflexivity | discriminate | split; [reflexivity|discriminate]] .. |].
    exact (H eq_refl eq_refl).
  - destruct (tableTumbleToSQL_form
                (VObj [("data", VObj [("table", VStr "t")]);
                       ("timecol", VStr "ts"); ("size", VStr "INTERVAL '1' HOUR")])
                (VObj [("table", VStr "t")])
                None "t") as (H & _);
      [first [reflexivity | discriminate] .. |].
    exact H.
Defined.

(** X7 on a generator of two triples. *)
Lemma tableToSQL_generator_form_witness :
  tableToSQL
    (VObj [("expr",
            VObj [("type", VStr "generator"); ("keyword", VStr "table");
                  ("generators",
                   VArr [VArr [VStr "ROWCOUNT"; VStr "=>"; VNum 10];
                         VArr [VStr "TIMELIMIT"; VStr "=>"; VNum 5]])])])
  = Ok (VStr "TABLE(GENERATOR(ROWCOUNT => 10, TIMELIMIT => 5))").
Proof.
  exact (tableToSQL_generator_form
           (VObj [("type", VStr "generator"); ("keyword", VStr "table");
                  ("generators",
                   VArr [VArr [VStr "ROWCOUNT"; VStr "=>"; VNum 10];
                         VArr [VStr "TIMELIMIT"; VStr "=>"; VNum 5]])])
           "table"
           [VArr [VStr "ROWCOUNT"; VStr "=>"; VNum 10];
            VArr [VStr "TIMELIMIT"; VStr "=>"; VNum 5]]
           eq_refl eq_refl eq_refl eq_refl).
Defined.

(** X8 on the four kinds of value and on [OPTIONS] in upper case. *)
Lemma tableOptionToSQL_forms_witness :
  tableOptionToSQL
    (VObj [("keyword", VStr "partition by"); ("value", VStr "RANGE(d)")])
  = Ok (VStr "PARTITION BY RANGE(d)")
  /\ tableOptionToSQL
       (VObj [("keyword", VStr "cluster by"); ("value", VArr [VStr "a"; VStr "b"])])
     = Ok (VStr "CLUSTER BY a, b")
  /\ tableOptionToSQL
       (VObj [("keyword", VStr "options");
              ("value", VArr [VObj [("keyword", VStr "ttl"); ("symbol", VStr "=");
                                    ("value", VNum 3)];
                              VObj [("keyword", VStr "tag"); ("symbol", VStr "=");
                                    ("value", VStr "x")]])])
     = Ok (VStr "OPTIONS (ttl = 3, tag = x)")
  /\ tableOptionToSQL
       (VObj [("keyword", VStr "engine"); ("symbol", VStr "="); ("value", VStr "InnoDB")])
     = Ok (VStr "ENGINE = InnoDB")
  /\ tableOptionToSQL (VObj [("keyword", VStr "OPTIONS"); ("value", VStr "x")])
     = Ok (VStr "OPTIONS x").
Proof.
  refine (conj _ (conj _ (conj _ (conj _ _)))).
  - destruct (tableOptionToSQL_forms
                (VObj [("keyword", VStr "partition by"); ("value", VStr "RANGE(d)")])
                "partition by" eq_refl) as (H & _).
    exact (H (or_introl eq_refl)).
  - destruct (tableOptionToSQL_forms
                (VObj [("keyword", VStr "cluster by");
                       ("value", VArr [VStr "a"; VStr "b"])])
                "cluster by" eq_refl) as (_ & H & _).
    exact (H eq_refl [VStr "a"; VStr "b"] eq_refl).
  - destruct (tableOptionToSQL_forms
                (VObj [("keyword", VStr "options");
                       ("value", VArr [VObj [("keyword", VStr "ttl"); ("symbol", VStr "=");
                                             ("value", VNum 3)];
                                       VObj [("keyword", VStr "tag"); ("symbol", VStr "=");
                                             ("value", VStr "x")]])])
                "options" eq_refl) as (_ & _ & H & _).
    exact (H eq_refl _ eq_refl eq_refl).
  - destruct (tableOptionToSQL_forms
                (VObj [("keyword", VStr "engine"); ("symbol", VStr "=");
                       ("value", VStr "InnoDB")])
                "engine" eq_refl) as (_ & _ & _ & H).
    apply H; cbn; intuition discriminate.
  - destruct (tableOptionToSQL_forms
                (VObj [("keyword", VStr "OPTIONS"); ("value", VStr "x")])
                "OPTIONS" eq_refl) as (_ & _ & _ & H).
    apply H; cbn; intuition discriminate.
Defined.

(** X9 on an aliased table and on an UNNEST node. *)
Lemma tableToSQL_wraps_in_parentheses_witness :
  tableToSQL (VObj [("table", VStr "t"); ("as", VStr "x"); ("parentheses", VBool true)])
  = Ok (VStr "(t AS x)")
  /\ tableToSQL
       (VObj [("type", VStr "unnest"); ("expr", VStr "xs"); ("parentheses", VBool true)])
     = Ok (VStr "UNNEST(xs)").
Proof.
  split.
  - destruct (tableToSQL_wraps_in_parentheses
                [("table", VStr "t"); ("as", VStr "x"); ("parentheses", VBool true)]
                eq_refl) as [H _].
    rewrite (H eq_refl); reflexivity.
  - destruct (tableToSQL_wraps_in_parentheses
                [("type", VStr "unnest"); ("expr", VStr "xs");
                 ("parentheses", VBool true)]
                eq_refl) as [_ H].
    rewrite (H eq_refl); reflexivity.
Defined.

(** X10 on a [null] operator and an empty alias. *)
Lemma tableToSQL_falsy_is_absent_witness :
  tableToSQL (VObj [("table", VStr "t"); ("operator", VNull)]) = Ok (VStr "t")
  /\ tableToSQL (VObj [("table", VStr "t"); ("as", VStr "")]) = Ok (VStr "t").
Proof.
  split.
  - rewrite (tableToSQL_falsy_is_absent
               [("table", VStr "t"); ("operator", VNull)] "operator");
      [reflexivity | cbn; auto 8 | reflexivity].
  - rewrite (tableToSQL_falsy_is_absent
               [("table", VStr "t"); ("as", VStr "")] "as");
      [reflexivity | cbn; auto 8 | reflexivity].
Defined.

(** X11 on an UNNEST node that also has a name, an operator and
    parentheses. *)
Lemma tableToSQL_unnest_reads_witness :
  tableToSQL
    (VObj [("type", VStr "unnest"); ("db", VStr "d"); ("table", VStr "t");
           ("expr", VStr "xs"); ("parentheses", VBool true);
           ("operator", VObj [("type", VStr "pivot")])])
  = Ok (VStr "UNNEST(xs)").
Proof.
  rewrite (tableToSQL_unnest_reads
             [("type", VStr "unnest"); ("expr", VStr "xs")]
             [("type", VStr "unnest"); ("db", VStr "d"); ("table", VStr "t");
              ("expr", VStr "xs"); ("parentheses", VBool true);
              ("operator", VObj [("type", VStr "pivot")])]);
    [reflexivity | reflexivity | repeat constructor].
Defined.

(** X12 on rows with a nested call, with and without a row prefix. *)
Lemma tableToSQL_values_form_witness :
  tableToSQL
    (VObj [("expr", VObj [("type", VStr "values"); ("values", VStr "(1, f(2)), (3, 4)");
                          ("parentheses", VBool true)])])
  = Ok (VStr "(VALUES (1, f(2)), (3, 4))")
  /\ tableToSQL
       (VObj [("expr", VObj [("type", VStr "values");
                             ("values", VStr "(1, f(2)), (3, 4)");
                             ("prefix", VStr "row")])])
     = Ok (VStr "VALUES ROW(1, fROW(2)), ROW(3, 4)").
Proof.
  split.
  - destruct (tableToSQL_values_form
                (VObj [("type", VStr "values"); ("values", VStr "(1, f(2)), (3, 4)");
                       ("parentheses", VBool true)])
                "(1, f(2)), (3, 4)") as [H _]; [reflexivity .. |].
    exact (H eq_refl).
  - destruct (tableToSQL_values_form
                (VObj [("type", VStr "values"); ("values", VStr "(1, f(2)), (3, 4)");
                       ("prefix", VStr "row")])
                "(1, f(2)), (3, 4)") as [_ H]; [reflexivity .. |].
    apply (H "row"); [reflexivity|discriminate].
Defined.

(** X14 on a chain of one aliased table. *)
Lemma tablesToSQL_single_witness :
  tablesToSQL (VArr [VObj [("table", VStr "t"); ("as", VStr "x")]])
  = Ok (VStr "t AS x").
Proof.
  rewrite (tablesToSQL_single (VObj [("table", VStr "t"); ("as", VStr "x")]));
    reflexivity.
Defined.

(** X15 on a table with every segment, and on a table with an operator of
    an unsupported type, a hint list and a seed without sample
    expression. *)
Lemma tableToSQL_segment_order_witness :
  tableToSQL
    (VObj [("table", VStr "t");
           ("table_hint",
            VObj [("keyword", VStr "with");
                  ("expr", VArr [VObj [("keyword", VStr "nolock"); ("expr", VStr "NOLOCK")];
                                 VObj [("keyword", VStr "none"); ("expr", VStr "")];
                                 VObj [("keyword", VStr "index"); ("expr", VStr "i1")]])]);
           ("operator", VObj [("type", VStr "pivot"); ("expr", VStr "SUM(v)");
                              ("column", VStr "c"); ("in_expr", VStr "IN (1, 2)")]);
           ("as", VStr "x");
           ("temporal_table",
            VObj [("keyword", VStr "for_system_time");
                  ("expr", VObj [("keyword", VStr "as"); ("of", VStr "ts")])]);
           ("tablesample", VObj [("expr", VStr "(10)"); ("repeatable", VStr "R")]);
           ("parentheses", VBool true)])
  = Ok (VStr ("(t TABLESAMPLE (10) R FOR_SYSTEM_TIME AS OF ts AS x "
              ++ "PIVOT(SUM(v) FOR c IN (1, 2)) WITH (NOLOCK, INDEX = i1))"))
  /\ tableToSQL
       (VObj [("table", VStr "t");
              ("operator", VObj [("type", VStr "bogus")]);
              ("tablesample", VObj [("repeatable", VNum 5)]);
              ("table_hint", VObj [("expr", VArr [VNull])])])
     = Ok (VStr "t TABLESAMPLE 5 ()").
Proof.
  split.
  - match goal with
    | |- tableToSQL (VObj ?fields) = _ =>
        rewrite (tableToSQL_segment_order fields "t" "t"
                   (Some (Some "(10)", Some "R")) (Some "FOR_SYSTEM_TIME AS OF ts")
                   (Some "x") (Some "PIVOT(SUM(v) FOR c IN (1, 2))")
                   (Some (Some "WITH", [Some "NOLOCK"; None; Some "INDEX = i1"])))
    end.
    + reflexivity.
    + reflexivity.
    + discriminate.
    + reflexivity.
    + discriminate.
    + reflexivity.
    + repeat constructor.
    + refine (conj eq_refl (conj (conj eq_refl _) (conj eq_refl _))); discriminate.
    + eexists; split; [reflexivity|split; [reflexivity|discriminate]].
    + split; reflexivity.
    + eexists; split; [reflexivity|split; [reflexivity|discriminate]].
    + refine (conj eq_refl (conj _ _)).
      * eexists; split; [reflexivity|split; [reflexivity|discriminate]].
      * eexists; split; [reflexivity|].
        apply Forall2_cons;
          [eexists; split; [reflexivity|split; [reflexivity|discriminate]]|].
        apply Forall2_cons; [eexists; split; reflexivity|].
        apply Forall2_cons;
          [eexists; split; [reflexivity|split; [reflexivity|discriminate]]|].
        constructor.
  - match goal with
    | |- tableToSQL (VObj ?fields) = _ =>
        rewrite (tableToSQL_segment_order fields "t" "t"
                   (Some (None, Some "5")) None None None
                   (Some (None, [None])))
    end.
    + reflexivity.
    + reflexivity.
    + discriminate.
    + reflexivity.
    + discriminate.
    + reflexivity.
    + repeat constructor.
    + refine (conj eq_refl (conj eq_refl (conj eq_refl _))); discriminate.
    + eexists; split; reflexivity.
    + reflexivity.
    + eexists; split; reflexivity.
    + refine (conj eq_refl (conj _ _)).
      * eexists; split; reflexivity.
      * eexists; split; [reflexivity|].
        apply Forall2_cons; [eexists; split; reflexivity|constructor].
Defined.

(** X16 on a table with a database, a prefix and a suffix. *)
Lemma tableToSQL_prefix_suffix_witness :
  tableToSQL
    (VObj [("db", VStr "d"); ("table", VStr "t"); ("prefix", VStr "only");
           ("suffix", VStr "final")])
  = Ok (VStr "d.ONLY t FINAL").
Proof.
  apply (tableToSQL_prefix_suffix _ "t" "t" (Some "d") (Some "only") (Some "final"));
    first [ reflexivity | discriminate | split; [reflexivity|discriminate]
          | repeat constructor ].
Defined.

(** X17 on a node that has both a [table] and a subquery. *)
Lemma tableToSQL_expr_overrides_table_witness :
  tableToSQL (VObj [("table", VStr "t"); ("expr", VStr "(SELECT 1)")])
  = Ok (VStr "(SELECT 1)").
Proof.
  apply (tableToSQL_expr_overrides_table _ "(SELECT 1)").
  - reflexivity.
  - cbn; intuition discriminate.
  - reflexivity.
  - reflexivity.
  - repeat constructor.
Defined.

End Concrete.
